(** * The tensorboard manager of jupyterlab_tensorboard_pro

    A shallow embedding of [src/manager.ts] (class [TensorboardManager]):
    the directory formatter [formatDir] and the registry of running
    tensorboards with its start / shutdown / refresh operations.

    Asynchronous methods are cut at their suspension points: each Rocq
    function below is one run-to-completion segment of the JavaScript event
    loop (the synchronous part of a call, or one [then] callback), and the
    outcome of the remote call it waits for is an argument.

    The first part holds the definitions, the second part the proofs. *)

From Stdlib Require Import ZArith Lia Ascii String.
From stdpp Require Import base option list strings gmap.

Local Open Scope Z_scope.
Local Open Scope string_scope.

(** * Part I: the program *)

(** ** JavaScript string primitives used by [formatDir] *)

Module JsString.

(** [s.indexOf(pat)]: index of the first occurrence, [-1] when there is
    none. *)
Fixpoint indexOf (pat s : string) : Z :=
  if String.prefix pat s then 0
  else match s with
       | EmptyString => -1
       | String _ s' =>
           let r := indexOf pat s' in
           if (r =? -1)%Z then -1 else r + 1
       end.

(** [s.includes(pat)] *)
Definition includes (pat s : string) : bool := negb (indexOf pat s =? -1)%Z.

(** [s.slice(n)] for [0 <= n]. *)
Fixpoint slice_from (n : nat) (s : string) : string :=
  match n, s with
  | O, _ => s
  | S _, EmptyString => EmptyString
  | S n', String _ s' => slice_from n' s'
  end.

(** [s.replace(pat, rep)] with a string pattern: only the first occurrence
    is replaced.  ([rep] is always the empty string in the manager, so the
    dollar patterns of the replacement play no role.) *)
Fixpoint replace (pat rep s : string) : string :=
  if String.prefix pat s then rep +:+ slice_from (String.length pat) s
  else match s with
       | EmptyString => EmptyString
       | String c s' => String c (replace pat rep s')
       end.

(** [s.replace(/^\//, '')]: drops one leading slash. *)
Definition strip_leading_slash (s : string) : string :=
  match s with
  | String c s' => if Ascii.eqb c "/"%char then s' else s
  | EmptyString => s
  end.

(** [s.split(sep)] for a one-character separator, the only form the
    manager uses ([','] and [':']). *)
Fixpoint split (sep : ascii) (s : string) : list string :=
  match s with
  | EmptyString => [EmptyString]
  | String c s' =>
      if Ascii.eqb c sep then EmptyString :: split sep s'
      else match split sep s' with
           | [] => [String c EmptyString]
           | x :: xs => String c x :: xs
           end
  end.

(** [parts.join(sep)] on an array of strings. *)
Fixpoint join (sep : string) (parts : list string) : string :=
  match parts with
  | [] => EmptyString
  | [x] => x
  | x :: rest => x +:+ sep +:+ join sep rest
  end.

(** [parts[i]] with the non-null assertion of the source: the element, or
    the string ["undefined"] the template literal would print. *)
Definition at_ (i : nat) (parts : list string) : string :=
  default "undefined" (parts !! i).

(** A JavaScript string is truthy when it is not empty. *)
Definition truthy (s : string) : bool :=
  match s with EmptyString => false | _ => true end.

End JsString.

(** ** The directory formatter *)

(** [Tensorboard.StaticConfig]: only [notebook_dir] is read by the manager. *)
Record StaticConfig := { notebook_dir : string }.

Module FormatDir.
Import JsString.

Definition workspace_root_sentinel : string := "<workspace_root>".

(** The part of [formatDir] below the comma test (lines 101-112). *)
Definition formatSingle (pageRoot : option string) (dir : string) : string :=
  match pageRoot with
  | Some root =>
      if truthy root && (indexOf root dir =? 0)%Z then
        let replaceResult := replace root "" dir in
        let replaceResult :=
          if String.eqb replaceResult "" then "/" else replaceResult in
        let formatted := strip_leading_slash replaceResult in
        if negb (truthy formatted) then workspace_root_sentinel
        else formatted
      else dir
  | None => dir
  end.

(** [formatDir], with the recursion of the source bounded by [fuel]; [None]
    only when the fuel runs out. *)
Fixpoint formatDir_fuel (fuel : nat) (cfg : option StaticConfig)
    (dir : string) : option string :=
  match fuel with
  | O => None
  | S fuel' =>
      let pageRoot := notebook_dir <$> cfg in
      if includes "," dir then
        let dirs := split ","%char dir in
        join "," <$>
          mapM (fun dir =>
                  if includes ":" dir then
                    (fun r => at_ 0 (split ":"%char dir) +:+ ":" +:+ r) <$>
                      formatDir_fuel fuel' cfg (at_ 1 (split ":"%char dir))
                  else formatDir_fuel fuel' cfg dir) dirs
      else Some (formatSingle pageRoot dir)
  end.

(** Two levels of recursion always suffice (see [formatDir_fuel_enough]):
    the pieces of a string split on commas hold no comma. *)
Definition formatDir (cfg : option StaticConfig) (dir : string)
    : option string :=
  formatDir_fuel 2 cfg dir.

End FormatDir.

(** ** Values exchanged with the backend *)

(** Modelled from the spec: the interface [Tensorboard.IModel] is declared in
    [tensorboard.ts], which is not among the sources.  The fields are those
    of the InstanceModel of the data model, which are also the ones the tab
    component reads. *)
Module IModel.
Record t := {
  name : string;
  logdir : string;
  reload_interval : option Z;
  enable_multi_log : bool;
  additional_args : string
}.

#[global] Instance eq_dec : EqDecision t.
Proof. solve_decision. Defined.
End IModel.

(** Modelled from the spec: the interface [Tensorboard.ITensorboard], also
    declared in [tensorboard.ts].  The manager reads [name] and [model], calls
    [dispose()] and connects to [terminated]; [id] stands for the identity of
    the JavaScript object, which is what a [Set] compares. *)
Module ITensorboard.
Record t := {
  id : nat;
  name : string;
  model : IModel.t
}.

#[global] Instance eq_dec : EqDecision t.
Proof. solve_decision. Defined.
End ITensorboard.

(** How a promise settles. *)
Inductive Settled (A : Type) : Type :=
| Fulfilled (value : A)
| Rejected (reason : string).
Arguments Fulfilled {A} value.
Arguments Rejected {A} reason.

(** What the manager does to the outside, in the order it does it. *)
Inductive Effect : Type :=
| Emit (snapshot : list IModel.t)    (* this._runningChanged.emit(snapshot) *)
| Dispose (t : ITensorboard.t)       (* t.dispose() *)
| RequestListRunning                 (* Tensorboard.listRunning(settings) *)
| RequestStartNew (logdir : string) (refreshInterval : Z)
    (enableMultiLog : bool) (additionalArgs : string)
                                     (* Tensorboard.startNew(...) *)
| RequestShutdown (name : string)    (* Tensorboard.shutdown(name, settings) *)
| RequestStaticConfig                (* Tensorboard.getStaticConfig(settings) *)
| SetInterval                        (* setInterval(..., 10000) *)
| ClearInterval                      (* clearInterval(this._refreshTimer) *)
| ClearSignalData.                   (* Signal.clearData(this) *)

#[global] Instance Effect_eq_dec : EqDecision Effect.
Proof. solve_decision. Defined.

(** ** Array helpers of lumino and of JavaScript *)

Module JsArray.

(** [ArrayExt.findFirstIndex(array, fn)] *)
Fixpoint findFirstIndex {A} (fn : A -> bool) (array : list A) : Z :=
  match array with
  | [] => -1
  | value :: rest =>
      if fn value then 0
      else let r := findFirstIndex fn rest in
           if (r =? -1)%Z then -1 else r + 1
  end.

(** [array.indexOf(x)] on an array of strings. *)
Definition indexOf (array : list string) (x : string) : Z :=
  findFirstIndex (String.eqb x) array.

(** [array.splice(index, 1)] for [0 <= index]. *)
Definition splice1 {A} (index : Z) (array : list A) : list A :=
  delete (Z.to_nat index) array.

(** [JSONExt.deepEqual] on two arrays of models: structural equality. *)
Definition deepEqual (first second : list IModel.t) : bool :=
  bool_decide (first = second).

(** [set.add(x)] on an insertion-ordered [Set]. *)
Definition set_add {A} `{EqDecision A} (x : A) (set : list A) : list A :=
  if decide (x ∈ set) then set else set ++ [x].

(** [set.delete(x)] *)
Definition set_delete {A} `{EqDecision A} (x : A) (set : list A) : list A :=
  filter (fun y => y <> x) set.

End JsArray.

(** ** The manager *)

Module TensorboardManager.
Import JsArray.

(** References to JavaScript arrays.  [_models] holds a reference: the
    array is spliced and pushed to in place, replaced by assignment, and
    [shutdownAll] keeps the reference it read. *)
Abbreviation ref := nat (only parsing).

Record t := {
  arrays : gmap nat (list IModel.t);     (* the arrays created so far *)
  _models : ref;                         (* Tensorboard.IModel[] *)
  _tensorboards : list ITensorboard.t;   (* Set<ITensorboard>, in insertion
                                            order, which forEach follows *)
  _isDisposed : bool;
  _isReady : bool;
  _statusConfig : option StaticConfig;   (* StaticConfig | null *)
  effects : list Effect                  (* oldest first *)
}.

(** *** Elementary state changes *)

Definition read (r : ref) (m : t) : list IModel.t :=
  default [] (arrays m !! r).

(** The contents of [this._models]. *)
Definition models (m : t) : list IModel.t := read (_models m) m.

Definition names (ms : list IModel.t) : list string := IModel.name <$> ms.

Definition log (e : Effect) (m : t) : t :=
  {| arrays := arrays m; _models := _models m;
     _tensorboards := _tensorboards m; _isDisposed := _isDisposed m;
     _isReady := _isReady m; _statusConfig := _statusConfig m;
     effects := effects m ++ [e] |}.

(** In-place update of the array [this._models] refers to. *)
Definition update_models (f : list IModel.t -> list IModel.t) (m : t) : t :=
  {| arrays := <[_models m := f (models m)]> (arrays m); _models := _models m;
     _tensorboards := _tensorboards m; _isDisposed := _isDisposed m;
     _isReady := _isReady m; _statusConfig := _statusConfig m;
     effects := effects m |}.

(** [this._models = array] for a freshly created [array]. *)
Definition assign_models (array : list IModel.t) (m : t) : t :=
  let r := fresh (dom (arrays m)) in
  {| arrays := <[r := array]> (arrays m); _models := r;
     _tensorboards := _tensorboards m; _isDisposed := _isDisposed m;
     _isReady := _isReady m; _statusConfig := _statusConfig m;
     effects := effects m |}.

Definition set_tensorboards (set : list ITensorboard.t) (m : t) : t :=
  {| arrays := arrays m; _models := _models m;
     _tensorboards := set; _isDisposed := _isDisposed m;
     _isReady := _isReady m; _statusConfig := _statusConfig m;
     effects := effects m |}.

Definition set_isReady (b : bool) (m : t) : t :=
  {| arrays := arrays m; _models := _models m;
     _tensorboards := _tensorboards m; _isDisposed := _isDisposed m;
     _isReady := b; _statusConfig := _statusConfig m;
     effects := effects m |}.

Definition set_isDisposed (b : bool) (m : t) : t :=
  {| arrays := arrays m; _models := _models m;
     _tensorboards := _tensorboards m; _isDisposed := b;
     _isReady := _isReady m; _statusConfig := _statusConfig m;
     effects := effects m |}.

Definition set_statusConfig (c : option StaticConfig) (m : t) : t :=
  {| arrays := arrays m; _models := _models m;
     _tensorboards := _tensorboards m; _isDisposed := _isDisposed m;
     _isReady := _isReady m; _statusConfig := c;
     effects := effects m |}.

(** [this._runningChanged.emit(snapshot)] *)
Definition emit (snapshot : list IModel.t) (m : t) : t :=
  log (Emit snapshot) m.

(** What a method that returns a promise has reached when its synchronous
    part ends. *)
Inductive Outcome (A : Type) : Type :=
| Pending                       (* waiting for a remote call *)
| Done (result : Settled A).
Arguments Pending {A}.
Arguments Done {A} result.

Section Operations.

(** [t.dispose()] belongs to the handle, whose code is not among the
    sources.  It can reach the manager only through the handle's
    [terminated] signal, to which [_onStarted] connects
    [() => this._onTerminated(name)]; [dispose_emits_terminated t] tells
    whether disposing [t] emits that signal. *)
Variable dispose_emits_terminated : ITensorboard.t -> bool.

(** The constructor (lines 18-28): the first poll, the timer and the
    static configuration request are started. *)
Definition constructor : t :=
  {| arrays := {[ 0%nat := [] ]}; _models := 0%nat;
     _tensorboards := []; _isDisposed := false; _isReady := false;
     _statusConfig := None;
     effects := [RequestListRunning; SetInterval; RequestStaticConfig] |}.

(** [dispose()] (lines 52-60) *)
Definition dispose (m : t) : t :=
  if _isDisposed m then m
  else
    let m := set_isDisposed true m in
    let m := log ClearInterval m in
    let m := log ClearSignalData m in
    assign_models [] m.

(** [running()] (lines 81-83), read at once. *)
Definition running (m : t) : list IModel.t := models m.

(** [formatDir(dir)] (lines 85-113) *)
Definition formatDir (m : t) (dir : string) : option string :=
  FormatDir.formatDir (_statusConfig m) dir.

(** [_onTerminated(name)] (lines 212-218) *)
Definition _onTerminated (name : string) (m : t) : t :=
  let index :=
    findFirstIndex (fun value => String.eqb (IModel.name value) name)
      (models m) in
  if negb (index =? -1)%Z then
    let m := update_models (splice1 index) m in
    emit (models m) m
  else m.

(** One call [t.dispose()] made by the manager. *)
Definition dispose_handle (h : ITensorboard.t) (m : t) : t :=
  let m := log (Dispose h) m in
  if dispose_emits_terminated h
  then _onTerminated (ITensorboard.name h) m
  else m.

(** [_onStarted(tensorboard)] (lines 223-234).  The connection made at
    the end is what [dispose_emits_terminated] and [_onTerminated]
    account for. *)
Definition _onStarted (tensorboard : ITensorboard.t) (m : t) : t :=
  let name := ITensorboard.name tensorboard in
  let m := set_tensorboards (set_add tensorboard (_tensorboards m)) m in
  let index :=
    findFirstIndex (fun value => String.eqb (IModel.name value) name)
      (models m) in
  if (index =? -1)%Z then
    let m := update_models (fun a => (a ++ [ITensorboard.model tensorboard])%list) m in
    emit (models m) m
  else m.

(** The callback of [this._tensorboards.forEach(t => { if (doomed t)
    { t.dispose(); toRemove.push(t); } })], on the manager and
    [toRemove]. *)
Definition dispose_step (doomed : ITensorboard.t -> bool)
    (acc : t * list ITensorboard.t) (h : ITensorboard.t)
    : t * list ITensorboard.t :=
  let '(m, toRemove) := acc in
  if doomed h then (dispose_handle h m, (toRemove ++ [h])%list)
  else (m, toRemove).

(** The loop itself, started with an empty [toRemove]. *)
Definition dispose_each (doomed : ITensorboard.t -> bool) (m : t)
    : t * list ITensorboard.t :=
  foldl (dispose_step doomed) (m, []) (_tensorboards m).

(** [toRemove.forEach(t => { this._tensorboards.delete(t); })] *)
Definition delete_each (toRemove : list ITensorboard.t) (m : t) : t :=
  foldl (fun m h => set_tensorboards (set_delete h (_tensorboards m)) m)
        m toRemove.

Definition dispose_and_delete (doomed : ITensorboard.t -> bool) (m : t) : t :=
  let '(m, toRemove) := dispose_each doomed m in
  delete_each toRemove m.

(** [_refreshRunning()] (lines 239-258): the request ... *)
Definition _refreshRunning_call (m : t) : t := log RequestListRunning m.

(** ... and its [then] callback. *)
Definition _refreshRunning_then (fetched : list IModel.t) (m : t) : t :=
  let m := set_isReady true m in
  if negb (deepEqual fetched (models m)) then
    let names := names fetched in
    let m :=
      dispose_and_delete
        (fun h => (indexOf names (ITensorboard.name h) =? -1)%Z) m in
    let m := assign_models fetched m in
    emit fetched m
  else m.

(** The promise [_refreshRunning()] returns, settled by the answer of
    [Tensorboard.listRunning]. *)
Definition _refreshRunning_settle (answer : Settled (list IModel.t)) (m : t)
    : t * Settled unit :=
  match answer with
  | Fulfilled fetched => (_refreshRunning_then fetched m, Fulfilled tt)
  | Rejected reason => (m, Rejected reason)
  end.

(** [refreshRunning()] (lines 205-207) *)
Definition refreshRunning_call (m : t) : t := _refreshRunning_call m.

(** [startNew(...)] (lines 124-140): up to the [await] ... *)
Definition startNew_call (logdir : string) (refreshInterval : Z)
    (enableMultiLog : bool) (additionalArgs : string) (m : t) : t :=
  log (RequestStartNew logdir refreshInterval enableMultiLog additionalArgs) m.

(** ... and from the [await] on. *)
Definition startNew_settle (answer : Settled ITensorboard.t) (m : t)
    : t * Settled ITensorboard.t :=
  match answer with
  | Fulfilled tensorboard => (_onStarted tensorboard m, Fulfilled tensorboard)
  | Rejected reason => (m, Rejected reason)
  end.

(** [shutdown(name)] (lines 145-166): the synchronous part, up to the
    call of [Tensorboard.shutdown] ... *)
Definition shutdown_call (name : string) (m : t) : t * Outcome unit :=
  let index :=
    findFirstIndex (fun value => String.eqb (IModel.name value) name)
      (models m) in
  if (index =? -1)%Z then (m, Done (Fulfilled tt))
  else
    let m := update_models (splice1 index) m in
    let m := emit (models m) m in
    (log (RequestShutdown name) m, Pending).

(** ... its [then] callback ... *)
Definition shutdown_then (name : string) (m : t) : t :=
  dispose_and_delete (fun h => String.eqb (ITensorboard.name h) name) m.

(** ... and the returned promise, settled by the answer of
    [Tensorboard.shutdown]: [then] has no rejection handler. *)
Definition shutdown_settle (name : string) (answer : Settled unit) (m : t)
    : t * Settled unit :=
  match answer with
  | Fulfilled _ => (shutdown_then name m, Fulfilled tt)
  | Rejected reason => (m, Rejected reason)
  end.

(** A whole [shutdown(name)] with nothing else running in between. *)
Definition shutdown_run (name : string) (answer : Settled unit) (m : t)
    : t * Settled unit :=
  match shutdown_call name m with
  | (m, Pending) => shutdown_settle name answer m
  | (m, Done result) => (m, result)
  end.

(** [shutdownAll()] (lines 173-198): the synchronous part.  The local
    [models] is the reference read from [this._models]. *)
Definition shutdownAll_call (m : t) : t * ref :=
  let models := _models m in
  let m :=
    if (0 <? Z.of_nat (length (read models m)))%Z then
      let m := assign_models [] m in
      emit [] m
    else m in
  (_refreshRunning_call m, models).

(** The callback run when the poll of [shutdownAll] is fulfilled:
    [models.map(...)] calls [Tensorboard.shutdown] for each element. *)
Definition shutdownAll_requests (models : ref) (m : t) : t :=
  foldl (fun m model => log (RequestShutdown (IModel.name model)) m)
        m (read models m).

(** The callback run when one of these calls is fulfilled. *)
Definition shutdownAll_then_shutdown (m : t) : t :=
  dispose_and_delete (fun _ => true) m.

(** One of these calls settles. *)
Definition shutdownAll_shutdown_settle (answer : Settled unit) (m : t) : t :=
  match answer with
  | Fulfilled _ => shutdownAll_then_shutdown m
  | Rejected _ => m
  end.

(** [Promise.all(...).then(() => undefined)] once every promise has
    settled: the first rejection, else fulfilled. *)
Fixpoint Promise_all (answers : list (Settled unit)) : Settled unit :=
  match answers with
  | [] => Fulfilled tt
  | Fulfilled _ :: rest => Promise_all rest
  | Rejected reason :: _ => Rejected reason
  end.

(** A whole [shutdownAll()] with nothing else running in between:
    [listing] answers the poll and [answers] are the outcomes of the
    shutdown calls in the order in which they settle. *)
Definition shutdownAll_run (listing : Settled (list IModel.t))
    (answers : list (Settled unit)) (m : t) : t * Settled unit :=
  let '(m, models) := shutdownAll_call m in
  match _refreshRunning_settle listing m with
  | (m, Rejected reason) => (m, Rejected reason)
  | (m, Fulfilled _) =>
      let m := shutdownAll_requests models m in
      (foldl (fun m answer => shutdownAll_shutdown_settle answer m) m answers,
       Promise_all answers)
  end.

(** [_getStaticConfig()] (lines 260-264): the [then] callback. *)
Definition _getStaticConfig_then (config : StaticConfig) (m : t) : t :=
  set_statusConfig (Some config) m.

End Operations.

End TensorboardManager.

(** ** Notions used to state the properties *)

(** *** The multi-directory notation and its grammar *)

Module FormatDirSpec.
Import JsString FormatDir.

(** Occurrence of one character, the meaning of [includes] on a
    one-character pattern. *)
Fixpoint has_char (c : ascii) (s : string) : bool :=
  match s with
  | EmptyString => false
  | String d s' => Ascii.eqb d c || has_char c s'
  end.

(** The callback mapped over the comma-separated pieces (lines 91-97), once
    the recursive calls are known to hit the comma-free branch. *)
Definition formatSegment (pageRoot : option string) (dir : string) : string :=
  if includes ":" dir then
    at_ 0 (split ":"%char dir) +:+ ":" +:+
      formatSingle pageRoot (at_ 1 (split ":"%char dir))
  else formatSingle pageRoot dir.

(** [cut sep s] splits [s] at its first [sep]. *)
Fixpoint cut (sep : ascii) (s : string) : option (string * string) :=
  match s with
  | EmptyString => None
  | String c s' =>
      if Ascii.eqb c sep then Some (EmptyString, s')
      else match cut sep s' with
           | Some (a, b) => Some (String c a, b)
           | None => None
           end
  end.

(** A segment as the specification words it,
    [segment := (label ':')? rawpath]: the label, when there is one, is
    re-attached and only the path after it is formatted. *)
Definition formatSegment_spec (pageRoot : option string) (segment : string)
    : string :=
  match cut ":" segment with
  | Some (label, rawpath) => label +:+ ":" +:+ formatSingle pageRoot rawpath
  | None => formatSingle pageRoot segment
  end.

(** The formatter as the specification words it,
    [path := segment (',' segment)*]. *)
Definition formatDir_spec (cfg : option StaticConfig) (dir : string) : string :=
  let pageRoot := notebook_dir <$> cfg in
  if includes "," dir
  then join "," (formatSegment_spec pageRoot <$> split ","%char dir)
  else formatSingle pageRoot dir.

End FormatDirSpec.

(** *** The registry *)

Module ManagerSpec.
Import JsArray TensorboardManager.

(** The test the manager makes to look a name up in [_models]. *)
Definition named (name : string) (value : IModel.t) : bool :=
  String.eqb (IModel.name value) name.

(** A change event occurs among the effects [d]. *)
Definition emits (d : list Effect) : Prop :=
  exists snapshot, Emit snapshot ∈ d.

(** The change event of the batch: none when [_models] was empty. *)
Definition batch_event (captured : list IModel.t) : list Effect :=
  match captured with
  | [] => []
  | _ :: _ => [Emit []]
  end.

(** What a fulfilled poll does to a manager whose [_models] is empty:
    nothing when nothing runs; else the handles whose name is not reported
    are disposed of and the reported list is announced. *)
Definition poll_effects (handles : list ITensorboard.t)
    (fetched : list IModel.t) : list Effect :=
  match fetched with
  | [] => []
  | _ :: _ =>
      ((Dispose <$>
          filter (fun h => ITensorboard.name h ∉ names fetched) handles)
       ++ [Emit fetched])%list
  end.

(** The payloads of the change events among the effects. *)
Definition change_events (d : list Effect) : list (list IModel.t) :=
  omap (fun e => match e with Emit snapshot => Some snapshot | _ => None end) d.

(** The entries of [_models] under a name. *)
Definition entries (name : string) (ms : list IModel.t) : list IModel.t :=
  filter (fun x => IModel.name x = name) ms.

(** Every handle held has a name that occurs in [_models]. *)
Definition covered (m : t) : Prop :=
  forall h, h ∈ _tensorboards m -> ITensorboard.name h ∈ names (models m).

(** [_models] refers to an array that exists. *)
Definition allocated (m : t) : Prop := _models m ∈ dom (arrays m).

End ManagerSpec.

(** *** Concrete managers used as examples *)

Module Fixtures.
Import TensorboardManager.

(** The workspace root of the examples of the formatter. *)
Definition home_user : option StaticConfig :=
  Some {| notebook_dir := "/home/user" |}.

Definition tb1 : IModel.t :=
  {| IModel.name := "tb1"; IModel.logdir := "/a";
     IModel.reload_interval := None; IModel.enable_multi_log := false;
     IModel.additional_args := "" |}.

Definition tb2 : IModel.t :=
  {| IModel.name := "tb2"; IModel.logdir := "/b";
     IModel.reload_interval := Some 30; IModel.enable_multi_log := false;
     IModel.additional_args := "" |}.

(** Two handles the backend returned for the same instance. *)
Definition h1 : ITensorboard.t :=
  {| ITensorboard.id := 1; ITensorboard.name := "tb1"; ITensorboard.model := tb1 |}.

Definition h1' : ITensorboard.t :=
  {| ITensorboard.id := 2; ITensorboard.name := "tb1"; ITensorboard.model := tb1 |}.

Definition h2 : ITensorboard.t :=
  {| ITensorboard.id := 3; ITensorboard.name := "tb2"; ITensorboard.model := tb2 |}.

(** Handles whose [dispose()] emits [terminated], and handles whose
    [dispose()] does not. *)
Definition always (_ : ITensorboard.t) : bool := true.
Definition never (_ : ITensorboard.t) : bool := false.

(** A new manager after one successful [startNew]. *)
Definition started : t := fst (startNew_settle (Fulfilled h1) constructor).

End Fixtures.

(** ** The iterator of [running()] *)

Module RunningIterator.
Import TensorboardManager.

(** lumino's [ArrayIterator]: the array it reads, by reference, and the next
    index. *)
Record ArrayIterator := {
  _source : nat;
  _index : nat
}.

(** [iter(array)] *)
Definition iter (array : nat) : ArrayIterator :=
  {| _source := array; _index := 0 |}.

(** [running()] (lines 81-83): [iter(this._models)]. *)
Definition running_iter (m : t) : ArrayIterator := iter (_models m).

(** [it.next()], read against the manager as it is when the call is made:
    [None] is [undefined]. *)
Definition next (it : ArrayIterator) (m : t)
    : option (IModel.t * ArrayIterator) :=
  match read (_source it) m !! _index it with
  | Some value =>
      Some (value, {| _source := _source it; _index := S (_index it) |})
  | None => None
  end.

(** [toArray(it)]: [next()] until it returns [undefined]; [fuel] bounds the
    loop. *)
Fixpoint toArray_fuel (fuel : nat) (it : ArrayIterator) (m : t)
    : list IModel.t :=
  match fuel with
  | O => []
  | S fuel' =>
      match next it m with
      | Some (value, it') => value :: toArray_fuel fuel' it' m
      | None => []
      end
  end.

(** The loop ends within the length of the array. *)
Definition toArray (it : ArrayIterator) (m : t) : list IModel.t :=
  toArray_fuel (S (length (read (_source it) m))) it m.

End RunningIterator.

(** ** The tab component, as far as it drives the manager

    [TensorboardTabReact], the component that [biz/widget.tsx] renders; the
    line numbers are those of its file. *)

Module TensorboardTab.
Import JsString.

(** What the component does through its props and the dialog. *)
Inductive Call : Type :=
| UpdateCurrentModel (model : option IModel.t)  (* props.updateCurrentModel *)
| SetWidgetName (name : string)                 (* props.setWidgetName *)
| CloseWidget                                   (* props.closeWidget() *)
| ShowDialog (title body : string)              (* showDialog({...}) *)
| OpenTensorBoard (modelName : string) (copy : bool).
                                                (* props.openTensorBoard *)

(** The state of [TensorboardTabReact].  [ready], [createPending] and
    [reloadPending] are set together with their refs ([useRefState]), so one
    field stands for both; [currentTensorBoard] and its ref are set apart by
    [changeModel] and are two fields.  A handler runs in the closure of the
    latest render: the state it reads is the state of the fields. *)
Record t := {
  ready : bool;
  createPending : bool;
  reloadPending : bool;
  showNewRow : bool;
  showListStatus : bool;
  currentTensorBoard : option IModel.t;
  currentTensorBoardRef : option IModel.t;
  runningTensorBoards : list IModel.t;
  notActiveError : bool;
  tensorboardManager : TensorboardManager.t;   (* props.tensorboardManager *)
  calls : list Call                            (* oldest first *)
}.

Definition set_ready (b : bool) (tab : t) : t :=
  {| ready := b; createPending := createPending tab;
     reloadPending := reloadPending tab; showNewRow := showNewRow tab;
     showListStatus := showListStatus tab;
     currentTensorBoard := currentTensorBoard tab;
     currentTensorBoardRef := currentTensorBoardRef tab;
     runningTensorBoards := runningTensorBoards tab;
     notActiveError := notActiveError tab;
     tensorboardManager := tensorboardManager tab; calls := calls tab |}.

Definition set_reloadPending (b : bool) (tab : t) : t :=
  {| ready := ready tab; createPending := createPending tab;
     reloadPending := b; showNewRow := showNewRow tab;
     showListStatus := showListStatus tab;
     currentTensorBoard := currentTensorBoard tab;
     currentTensorBoardRef := currentTensorBoardRef tab;
     runningTensorBoards := runningTensorBoards tab;
     notActiveError := notActiveError tab;
     tensorboardManager := tensorboardManager tab; calls := calls tab |}.

Definition set_showNewRow (b : bool) (tab : t) : t :=
  {| ready := ready tab; createPending := createPending tab;
     reloadPending := reloadPending tab; showNewRow := b;
     showListStatus := showListStatus tab;
     currentTensorBoard := currentTensorBoard tab;
     currentTensorBoardRef := currentTensorBoardRef tab;
     runningTensorBoards := runningTensorBoards tab;
     notActiveError := notActiveError tab;
     tensorboardManager := tensorboardManager tab; calls := calls tab |}.

Definition set_showListStatus (b : bool) (tab : t) : t :=
  {| ready := ready tab; createPending := createPending tab;
     reloadPending := reloadPending tab; showNewRow := showNewRow tab;
     showListStatus := b;
     currentTensorBoard := currentTensorBoard tab;
     currentTensorBoardRef := currentTensorBoardRef tab;
     runningTensorBoards := runningTensorBoards tab;
     notActiveError := notActiveError tab;
     tensorboardManager := tensorboardManager tab; calls := calls tab |}.

(** [setCurrentTensorBoard(model)]: the state only. *)
Definition setCurrentTensorBoard (model : option IModel.t) (tab : t) : t :=
  {| ready := ready tab; createPending := createPending tab;
     reloadPending := reloadPending tab; showNewRow := showNewRow tab;
     showListStatus := showListStatus tab;
     currentTensorBoard := model;
     currentTensorBoardRef := currentTensorBoardRef tab;
     runningTensorBoards := runningTensorBoards tab;
     notActiveError := notActiveError tab;
     tensorboardManager := tensorboardManager tab; calls := calls tab |}.

(** [currentTensorBoardRef.current = model] *)
Definition set_currentTensorBoardRef (model : option IModel.t) (tab : t) : t :=
  {| ready := ready tab; createPending := createPending tab;
     reloadPending := reloadPending tab; showNewRow := showNewRow tab;
     showListStatus := showListStatus tab;
     currentTensorBoard := currentTensorBoard tab;
     currentTensorBoardRef := model;
     runningTensorBoards := runningTensorBoards tab;
     notActiveError := notActiveError tab;
     tensorboardManager := tensorboardManager tab; calls := calls tab |}.

Definition setRunningTensorBoards (l : list IModel.t) (tab : t) : t :=
  {| ready := ready tab; createPending := createPending tab;
     reloadPending := reloadPending tab; showNewRow := showNewRow tab;
     showListStatus := showListStatus tab;
     currentTensorBoard := currentTensorBoard tab;
     currentTensorBoardRef := currentTensorBoardRef tab;
     runningTensorBoards := l;
     notActiveError := notActiveError tab;
     tensorboardManager := tensorboardManager tab; calls := calls tab |}.

Definition setNotActiveError (b : bool) (tab : t) : t :=
  {| ready := ready tab; createPending := createPending tab;
     reloadPending := reloadPending tab; showNewRow := showNewRow tab;
     showListStatus := showListStatus tab;
     currentTensorBoard := currentTensorBoard tab;
     currentTensorBoardRef := currentTensorBoardRef tab;
     runningTensorBoards := runningTensorBoards tab;
     notActiveError := b;
     tensorboardManager := tensorboardManager tab; calls := calls tab |}.

Definition set_manager (m : TensorboardManager.t) (tab : t) : t :=
  {| ready := ready tab; createPending := createPending tab;
     reloadPending := reloadPending tab; showNewRow := showNewRow tab;
     showListStatus := showListStatus tab;
     currentTensorBoard := currentTensorBoard tab;
     currentTensorBoardRef := currentTensorBoardRef tab;
     runningTensorBoards := runningTensorBoards tab;
     notActiveError := notActiveError tab;
     tensorboardManager := m; calls := calls tab |}.

Definition call (c : Call) (tab : t) : t :=
  {| ready := ready tab; createPending := createPending tab;
     reloadPending := reloadPending tab; showNewRow := showNewRow tab;
     showListStatus := showListStatus tab;
     currentTensorBoard := currentTensorBoard tab;
     currentTensorBoardRef := currentTensorBoardRef tab;
     runningTensorBoards := runningTensorBoards tab;
     notActiveError := notActiveError tab;
     tensorboardManager := tensorboardManager tab;
     calls := calls tab ++ [c] |}.

(** [array.find(fn)]: [None] is [undefined]. *)
Fixpoint Array_find {A} (fn : A -> bool) (array : list A) : option A :=
  match array with
  | [] => None
  | value :: rest => if fn value then Some value else Array_find fn rest
  end.

(** [props.tensorboardManager.formatDir(dir)], which always returns. *)
Definition formatDir (tab : t) (dir : string) : string :=
  default "" (TensorboardManager.formatDir (tensorboardManager tab) dir).

Section Component.

(** [t.dispose()] of the handles, as for the manager. *)
Variable dispose_emits_terminated : ITensorboard.t -> bool.

(** [DEFAULT_REFRESH_INTERVAL] of [consts.ts], which is not among the
    sources. *)
Variable DEFAULT_REFRESH_INTERVAL : Z.

(** The props [createdModelName] and [setWidgetName], both optional:
    [setWidgetName] tells whether the second one is given. *)
Variable createdModelName : option string.
Variable setWidgetName : bool.

(** [updateCurrentTensorBoard(model)] (lines 182-186) *)
Definition updateCurrentTensorBoard (model : option IModel.t) (tab : t) : t :=
  let tab := call (UpdateCurrentModel model) tab in
  let tab := setCurrentTensorBoard model tab in
  set_currentTensorBoardRef model tab.

(** The title given to the widget for a model. *)
Definition widgetName (tab : t) (model : IModel.t) : string :=
  (IModel.name model +:+ ":") +:+ formatDir tab (IModel.logdir model).

(** [refreshRunning] (lines 195-240): the guard and the call of the
    manager; the boolean tells whether the manager was called. *)
Definition refreshRunning_call (tab : t) : t * bool :=
  if createPending tab || reloadPending tab then (tab, false)
  else
    (set_manager (TensorboardManager.refreshRunning_call (tensorboardManager tab)) tab,
     true).

(** The [then] callback of [refreshRunning], run once the promise of the
    manager is fulfilled. *)
Definition refreshRunning_then (tab : t) : t :=
  let modelList := TensorboardManager.running (tensorboardManager tab) in
  let tab := setRunningTensorBoards modelList tab in
  if ready tab then
    match currentTensorBoardRef tab with
    | Some current =>
        match Array_find
                (fun model => String.eqb (IModel.name model) (IModel.name current))
                modelList with
        | None => setNotActiveError true tab
        | Some _ => tab
        end
    | None => tab
    end
  else
    let model :=
      match createdModelName with
      | Some created =>
          if truthy created
          then Array_find (fun model => String.eqb (IModel.name model) created)
                          modelList
          else None
      | None => None
      end in
    let tab :=
      match model with
      | Some model =>
          let tab := updateCurrentTensorBoard (Some model) tab in
          let tab := set_showListStatus true tab in
          if setWidgetName then call (SetWidgetName (widgetName tab model)) tab
          else tab
      | None =>
          let tab := set_showNewRow true tab in
          set_showListStatus false tab
      end in
    set_ready true tab.

(** The answer of the backend to the poll reaches the manager first, then
    the callback of the tab; a rejection reaches no handler of the tab. *)
Definition refreshRunning_settle (answer : Settled (list IModel.t)) (tab : t) : t :=
  let '(m, result) :=
    TensorboardManager._refreshRunning_settle dispose_emits_terminated answer
      (tensorboardManager tab) in
  let tab := set_manager m tab in
  match result with
  | Fulfilled _ => refreshRunning_then tab
  | Rejected _ => tab
  end.

(** [errorCallback] of [reloadTensorBoard] (lines 319-326) *)
Definition errorCallback (tab : t) : t :=
  let tab :=
    call (ShowDialog "TensorBoard Reload Error"
            "The panel has been closed, you can reopen to create new") tab in
  call CloseWidget tab.

(** [reloadTensorBoard] (lines 304-349): the synchronous part.  The handler
    keeps the model it read, and the promise of [shutdown] is pending or
    already settled. *)
Definition reloadTensorBoard_call (tab : t)
    : t * option (IModel.t * TensorboardManager.Outcome unit) :=
  match currentTensorBoard tab with
  | None => (tab, None)
  | Some current =>
      let tab := set_reloadPending true tab in
      let tab := updateCurrentTensorBoard None tab in
      let '(m, outcome) :=
        TensorboardManager.shutdown_call (IModel.name current)
          (tensorboardManager tab) in
      (set_manager m tab, Some (current, outcome))
  end.

(** How the promise of [manager.shutdown(name)] settles, given the answer of
    the backend when a request is pending. *)
Definition shutdown_settled (name : string)
    (outcome : TensorboardManager.Outcome unit) (answer : Settled unit) (tab : t)
    : t * Settled unit :=
  match outcome with
  | TensorboardManager.Pending =>
      let '(m, result) :=
        TensorboardManager.shutdown_settle dispose_emits_terminated name answer
          (tensorboardManager tab) in
      (set_manager m tab, result)
  | TensorboardManager.Done result => (tab, result)
  end.

(** The handlers attached to the promise of [shutdown] by
    [reloadTensorBoard]; the boolean tells whether [startNew] was called. *)
Definition reload_after_shutdown (current : IModel.t)
    (outcome : TensorboardManager.Outcome unit) (answer : Settled unit) (tab : t)
    : t * bool :=
  let reloadInterval :=
    match IModel.reload_interval current with
    | Some interval => interval
    | None => DEFAULT_REFRESH_INTERVAL
    end in
  let '(tab, result) :=
    shutdown_settled (IModel.name current) outcome answer tab in
  match result with
  | Fulfilled _ =>
      (set_manager
         (TensorboardManager.startNew_call (IModel.logdir current) reloadInterval
            (IModel.enable_multi_log current) (IModel.additional_args current)
            (tensorboardManager tab)) tab,
       true)
  | Rejected _ => (errorCallback tab, false)
  end.

(** The handlers attached to the promise of [startNew] by
    [reloadTensorBoard]. *)
Definition reload_after_start (current : IModel.t)
    (answer : Settled ITensorboard.t) (tab : t) : t :=
  let '(m, result) :=
    TensorboardManager.startNew_settle answer (tensorboardManager tab) in
  let tab := set_manager m tab in
  match result with
  | Fulfilled _ =>
      let tab := fst (refreshRunning_call tab) in
      let tab := set_reloadPending false tab in
      updateCurrentTensorBoard (Some current) tab
  | Rejected _ => errorCallback tab
  end.

(** [destroyTensorBoard] (lines 351-358): the synchronous part ... *)
Definition destroyTensorBoard_call (tab : t)
    : t * option (IModel.t * TensorboardManager.Outcome unit) :=
  match currentTensorBoard tab with
  | None => (tab, None)
  | Some current =>
      let '(m, outcome) :=
        TensorboardManager.shutdown_call (IModel.name current)
          (tensorboardManager tab) in
      (set_manager m tab, Some (current, outcome))
  end.

(** ... and the [then] callback: there is no handler for a rejection. *)
Definition destroy_after_shutdown (current : IModel.t)
    (outcome : TensorboardManager.Outcome unit) (answer : Settled unit) (tab : t)
    : t :=
  let '(tab, result) :=
    shutdown_settled (IModel.name current) outcome answer tab in
  match result with
  | Fulfilled _ => call CloseWidget tab
  | Rejected _ => tab
  end.

(** [copyTensorBoard] (lines 360-365) *)
Definition copyTensorBoard (tab : t) : t :=
  match currentTensorBoard tab with
  | None => tab
  | Some current => call (OpenTensorBoard (IModel.name current) true) tab
  end.

(** [getShowName(model)] (lines 367-370) *)
Definition getShowName (tab : t) (model : IModel.t) : string :=
  (IModel.name model +:+ " - ") +:+ formatDir tab (IModel.logdir model).

(** [changeModel(model)] (lines 372-380) *)
Definition changeModel (model : IModel.t) (tab : t) : t :=
  let same :=
    match currentTensorBoard tab with
    | Some current => String.eqb (IModel.name current) (IModel.name model)
    | None => false
    end in
  if same then tab
  else
    let tab :=
      if setWidgetName then call (SetWidgetName (widgetName tab model)) tab
      else tab in
    setCurrentTensorBoard (Some model) tab.

(** [toggleNewRow] (lines 382-384) *)
Definition toggleNewRow (tab : t) : t := set_showNewRow (negb (showNewRow tab)) tab.

End Component.

End TensorboardTab.

(** *** Concrete tabs used as examples *)

Module TabFixtures.
Import TensorboardTab.

(** The component when it is mounted on a manager. *)
Definition mounted (m : TensorboardManager.t) : t :=
  {| ready := false; createPending := false; reloadPending := false;
     showNewRow := false; showListStatus := false;
     currentTensorBoard := None; currentTensorBoardRef := None;
     runningTensorBoards := []; notActiveError := false;
     tensorboardManager := m; calls := [] |}.

(** The component showing [tb1], which the manager of [Fixtures.started]
    lists. *)
Definition showing : t :=
  {| ready := true; createPending := false; reloadPending := false;
     showNewRow := false; showListStatus := true;
     currentTensorBoard := Some Fixtures.tb1;
     currentTensorBoardRef := Some Fixtures.tb1;
     runningTensorBoards := [Fixtures.tb1]; notActiveError := false;
     tensorboardManager := Fixtures.started; calls := [] |}.

End TabFixtures.

(** * Part II: the proofs *)

(** ** Facts about the string primitives *)

Module JsStringFacts.
Import JsString FormatDirSpec.

Lemma indexOf_range pat s : indexOf pat s = -1 \/ 0 <= indexOf pat s.
Proof.
  induction s as [|c s IH]; cbn [indexOf].
  - destruct (String.prefix pat ""); lia.
  - destruct (String.prefix pat (String c s)); [lia|].
    destruct (Z.eqb_spec (indexOf pat s) (-1)); lia.
Qed.

(** [indexOf] is [0] exactly on the strings that start with the pattern. *)
Lemma indexOf_zero pat s :
  (indexOf pat s =? 0)%Z = String.prefix pat s.
Proof.
  destruct s as [|c s]; cbn [indexOf].
  - destruct (String.prefix pat ""); reflexivity.
  - destruct (String.prefix pat (String c s)); [reflexivity|].
    destruct (Z.eqb_spec (indexOf pat s) (-1)); [reflexivity|].
    destruct (indexOf_range pat s); [contradiction|].
    apply Z.eqb_neq. lia.
Qed.

Lemma prefix_app p r : String.prefix p (p +:+ r) = true.
Proof.
  induction p as [|c p IH]; simpl.
  - destruct r; reflexivity.
  - destruct (ascii_dec c c); [assumption|contradiction].
Qed.

Lemma prefix_inv p s :
  String.prefix p s = true -> exists r, s = p +:+ r.
Proof.
  revert s. induction p as [|c p IH]; intros s H.
  - exists s. reflexivity.
  - destruct s as [|d s]; simpl in H; [discriminate|].
    destruct (ascii_dec c d) as [->|]; [|discriminate].
    destruct (IH _ H) as [r ->]. exists r. reflexivity.
Qed.

Lemma slice_from_app p r : slice_from (String.length p) (p +:+ r) = r.
Proof. induction p as [|c p IH]; simpl; [destruct r; reflexivity|assumption]. Qed.

Lemma replace_unfold pat rep s :
  replace pat rep s =
  if String.prefix pat s then rep +:+ slice_from (String.length pat) s
  else match s with
       | EmptyString => EmptyString
       | String c s' => String c (replace pat rep s')
       end.
Proof. destruct s; reflexivity. Qed.

(** Replacing a prefix by the empty string leaves the rest. *)
Lemma replace_prefix p r : replace p "" (p +:+ r) = r.
Proof.
  rewrite replace_unfold, prefix_app, slice_from_app. reflexivity.
Qed.

Lemma includes_char c s : includes (String c "") s = has_char c s.
Proof.
  unfold includes. induction s as [|d s IH]; [reflexivity|].
  cbn [indexOf String.prefix has_char].
  destruct (ascii_dec c d) as [->|Hne].
  - rewrite Ascii.eqb_refl. destruct s; reflexivity.
  - assert (Ascii.eqb d c = false) as -> by (apply Ascii.eqb_neq; congruence).
    cbn [orb]. rewrite <- IH.
    destruct (Z.eqb_spec (indexOf (String c "") s) (-1)) as [E|E].
    + reflexivity.
    + destruct (indexOf_range (String c "") s); [contradiction|].
      cbn [negb]. apply negb_true_iff, Z.eqb_neq. lia.
Qed.

Lemma split_nonempty sep s : split sep s <> [].
Proof.
  destruct s as [|c s]; simpl; [discriminate|].
  destruct (Ascii.eqb c sep); [discriminate|].
  destruct (split sep s); discriminate.
Qed.

(** A character absent from the string is absent from every piece, and the
    separator is absent from every piece. *)
Lemma split_has_char c sep s seg :
  seg ∈ split sep s ->
  has_char c s = false \/ c = sep ->
  has_char c seg = false.
Proof.
  revert seg. induction s as [|d s IH]; intros seg Hin Hc.
  - apply list_elem_of_singleton in Hin. subst. reflexivity.
  - cbn [split] in Hin. cbn [has_char] in Hc.
    destruct (Ascii.eqb_spec d sep) as [->|Hd].
    + apply elem_of_cons in Hin as [->|Hin]; [reflexivity|].
      apply IH; [assumption|].
      destruct Hc as [Hc|Hc]; [|right; assumption].
      apply orb_false_iff in Hc as [_ Hc]. left. assumption.
    + assert (Hc' : has_char c s = false \/ c = sep).
      { destruct Hc as [Hc|Hc]; [|right; assumption].
        apply orb_false_iff in Hc as [_ Hc]. left. assumption. }
      assert (Hdc : Ascii.eqb d c = false).
      { destruct Hc as [Hc|Hc].
        - apply orb_false_iff in Hc as [Hc _]. assumption.
        - subst c. apply Ascii.eqb_neq. assumption. }
      destruct (split sep s) as [|x xs] eqn:E.
      * apply list_elem_of_singleton in Hin. subst. cbn. rewrite Hdc. reflexivity.
      * apply elem_of_cons in Hin as [->|Hin].
        -- cbn [has_char]. rewrite Hdc. cbn [orb].
           apply IH; [left|assumption].
        -- apply IH; [right; assumption|assumption].
Qed.

Lemma at_has_char c sep s i :
  has_char c s = false -> has_char c "undefined" = false ->
  has_char c (at_ i (split sep s)) = false.
Proof.
  intros Hs Hu. unfold at_.
  destruct (split sep s !! i) as [seg|] eqn:E; cbn [default]; [|assumption].
  apply (split_has_char c sep s seg).
  - eapply list_elem_of_lookup_2. eassumption.
  - left. assumption.
Qed.

End JsStringFacts.

(** ** What [formatDir] computes *)

Module FormatDirFacts.
Import JsString JsStringFacts FormatDir FormatDirSpec.

Lemma mapM_pointwise {A B} (f : A -> option B) (g : A -> B) (l : list A) :
  (forall a, a ∈ l -> f a = Some (g a)) -> mapM f l = Some (g <$> l).
Proof.
  induction l as [|a l IH]; intros H; [reflexivity|].
  cbn. rewrite (H a) by apply list_elem_of_here. cbn.
  rewrite IH; [reflexivity|].
  intros b Hb. apply H. apply list_elem_of_further. assumption.
Qed.

Lemma formatDir_fuel_no_comma n cfg dir :
  includes "," dir = false ->
  formatDir_fuel (S n) cfg dir = Some (formatSingle (notebook_dir <$> cfg) dir).
Proof. intros H. cbn [formatDir_fuel]. rewrite H. reflexivity. Qed.

(** The recursion never runs out of fuel from depth two on: [formatDir] is
    total, and this is its value. *)
Lemma formatDir_fuel_enough n cfg dir :
  formatDir_fuel (S (S n)) cfg dir =
  Some (if includes "," dir
        then join "," (formatSegment (notebook_dir <$> cfg) <$> split ","%char dir)
        else formatSingle (notebook_dir <$> cfg) dir).
Proof.
  destruct (includes "," dir) eqn:Hc.
  - change (formatDir_fuel (S (S n)) cfg dir) with
      (if includes "," dir then
         join "," <$>
           mapM (fun dir =>
                   if includes ":" dir then
                     (fun r => at_ 0 (split ":"%char dir) +:+ ":" +:+ r) <$>
                       formatDir_fuel (S n) cfg (at_ 1 (split ":"%char dir))
                   else formatDir_fuel (S n) cfg dir) (split ","%char dir)
       else Some (formatSingle (notebook_dir <$> cfg) dir)).
    rewrite Hc.
    rewrite (mapM_pointwise _ (formatSegment (notebook_dir <$> cfg))); [reflexivity|].
    intros d Hd.
    assert (Hd' : has_char ","%char d = false).
    { eapply split_has_char; [exact Hd|right; reflexivity]. }
    unfold formatSegment. destruct (includes ":" d).
    + rewrite formatDir_fuel_no_comma; [reflexivity|].
      rewrite includes_char. apply at_has_char; [assumption|reflexivity].
    + apply formatDir_fuel_no_comma. rewrite includes_char. assumption.
  - apply formatDir_fuel_no_comma. assumption.
Qed.

Lemma formatDir_total cfg dir : is_Some (formatDir cfg dir).
Proof. unfold formatDir. rewrite formatDir_fuel_enough. eauto. Qed.

Lemma truthy_nonempty s : s <> "" -> truthy s = true.
Proof. destruct s; [congruence|reflexivity]. Qed.

(** [formatSingle] on a directory below a non-empty root. *)
Lemma formatSingle_under_root root rest :
  root <> "" ->
  formatSingle (Some root) (root +:+ rest) =
  let r := strip_leading_slash rest in
  if String.eqb r "" then workspace_root_sentinel else r.
Proof.
  intros Hroot. unfold formatSingle.
  rewrite truthy_nonempty by assumption.
  rewrite indexOf_zero, prefix_app, replace_prefix. cbn [andb].
  destruct rest as [|c rest]; [reflexivity|].
  change (String.eqb (String c rest) "") with false. cbv iota.
  cbn [strip_leading_slash].
  destruct (Ascii.eqb c "/"); [|reflexivity].
  destruct rest; reflexivity.
Qed.

Lemma formatSingle_outside_root root dir :
  String.prefix root dir = false -> formatSingle (Some root) dir = dir.
Proof.
  intros H. unfold formatSingle. rewrite indexOf_zero, H, andb_false_r.
  reflexivity.
Qed.

End FormatDirFacts.

Module FormatDirSpecFacts.
Import JsString JsStringFacts FormatDir FormatDirFacts FormatDirSpec.

Lemma cut_none sep s : cut sep s = None <-> has_char sep s = false.
Proof.
  induction s as [|c s IH]; cbn [cut has_char]; [tauto|].
  destruct (Ascii.eqb c sep); cbn [orb].
  - split; discriminate.
  - destruct (cut sep s) as [[a b]|].
    + split; [discriminate|]. intros H. apply IH in H. discriminate.
    + split; [intros _; apply IH; reflexivity|reflexivity].
Qed.

(** [split] starts with what [cut] finds before the separator. *)
Lemma split_cut sep s l r :
  cut sep s = Some (l, r) -> split sep s = l :: split sep r.
Proof.
  revert l. induction s as [|c s IH]; intros l H; cbn [cut] in H; [discriminate|].
  cbn [split]. destruct (Ascii.eqb c sep).
  - injection H as <- <-. reflexivity.
  - destruct (cut sep s) as [[a b]|]; [|discriminate].
    injection H as <- <-. rewrite (IH a eq_refl). reflexivity.
Qed.

Lemma split_no_sep sep s : has_char sep s = false -> split sep s = [s].
Proof.
  induction s as [|c s IH]; cbn [has_char split]; [reflexivity|].
  intros H. apply orb_false_iff in H as [Hc Hs]. rewrite Hc, (IH Hs). reflexivity.
Qed.

(** What the code makes of a segment with a colon: the text before the first
    colon, and the text between the first colon and the next one. *)
Lemma formatSegment_cut pageRoot segment label rawpath :
  cut ":" segment = Some (label, rawpath) ->
  formatSegment pageRoot segment =
  label +:+ ":" +:+ formatSingle pageRoot (at_ 0 (split ":" rawpath)).
Proof.
  intros H. unfold formatSegment.
  assert (Hinc : includes ":" segment = true).
  { rewrite includes_char. destruct (has_char ":" segment) eqn:E; [reflexivity|].
    apply cut_none in E. congruence. }
  rewrite Hinc, (split_cut _ _ _ _ H). unfold at_. cbn [lookup list_lookup].
  destruct (split ":" rawpath) eqn:E; [|reflexivity].
  exfalso. exact (split_nonempty _ _ E).
Qed.

(** On a segment without a colon, or with one colon, the code does what the
    grammar says. *)
Lemma formatSegment_agrees pageRoot segment :
  (forall label rawpath,
     cut ":" segment = Some (label, rawpath) -> has_char ":" rawpath = false) ->
  formatSegment pageRoot segment = formatSegment_spec pageRoot segment.
Proof.
  intros Hone. unfold formatSegment_spec.
  destruct (cut ":" segment) as [[label rawpath]|] eqn:E.
  - rewrite (formatSegment_cut _ _ _ _ E).
    rewrite (split_no_sep _ _ (Hone _ _ eq_refl)). reflexivity.
  - unfold formatSegment. rewrite includes_char.
    apply cut_none in E. rewrite E. reflexivity.
Qed.

(** [formatDir] follows the grammar on every directory string whose segments
    hold at most one colon each. *)
Lemma formatDir_agrees cfg dir :
  (forall segment label rawpath,
     segment ∈ split "," dir ->
     cut ":" segment = Some (label, rawpath) -> has_char ":" rawpath = false) ->
  formatDir cfg dir = Some (formatDir_spec cfg dir).
Proof.
  intros Hone. unfold formatDir, formatDir_spec.
  rewrite formatDir_fuel_enough. destruct (includes "," dir); [|reflexivity].
  do 2 f_equal. apply list_fmap_ext. intros i segment Hi.
  apply formatSegment_agrees. intros label rawpath.
  apply Hone. eapply list_elem_of_lookup_2. eassumption.
Qed.

End FormatDirSpecFacts.

Module FormatDirTests.
Import JsString FormatDir.

Example formatDir_sub :
  formatDir Fixtures.home_user "/home/user/sub" = Some "sub".
Proof. reflexivity. Qed.

Example formatDir_root :
  formatDir Fixtures.home_user "/home/user" = Some "<workspace_root>".
Proof. reflexivity. Qed.

Example formatDir_other :
  formatDir Fixtures.home_user "/other/path" = Some "/other/path".
Proof. reflexivity. Qed.

Example formatDir_multi :
  formatDir Fixtures.home_user "/home/user/a,label:/home/user/b" = Some "a,label:b".
Proof. reflexivity. Qed.

End FormatDirTests.

(** ** The claims about the formatter *)

Module FormatDirClaims.
Import JsString JsStringFacts FormatDir FormatDirSpec FormatDirFacts.

(** C8. For a comma-free directory and a configured (non-empty) workspace
    root: a directory that starts with the root loses that prefix and one
    leading slash, and what is left is returned, or the sentinel
    ["<workspace_root>"] when nothing is left; in particular the root itself
    gives the sentinel; a directory that does not start with the root is
    returned unchanged. *)
Theorem formatDir_comma_free (root dir : string) :
  root <> "" ->
  includes "," dir = false ->
  let cfg := Some {| notebook_dir := root |} in
  (forall rest, dir = root +:+ rest ->
     formatDir cfg dir =
     Some (if String.eqb (strip_leading_slash rest) ""
           then "<workspace_root>" else strip_leading_slash rest)) /\
  (dir = root -> formatDir cfg dir = Some "<workspace_root>") /\
  (String.prefix root dir = false -> formatDir cfg dir = Some dir).
Proof.
  intros Hroot Hcomma cfg.
  assert (E : formatDir cfg dir = Some (formatSingle (Some root) dir)).
  { unfold formatDir. rewrite formatDir_fuel_enough, Hcomma. reflexivity. }
  rewrite E. repeat split.
  - intros rest ->. rewrite formatSingle_under_root by assumption. reflexivity.
  - intros ->.
    assert (Hr : root = root +:+ "").
    { clear. induction root as [|c r IH]; [reflexivity|].
      change (String c r = String c (r +:+ "")). f_equal. exact IH. }
    rewrite Hr at 2. rewrite formatSingle_under_root by assumption. reflexivity.
  - intros H. rewrite formatSingle_outside_root by assumption. reflexivity.
Qed.

Lemma formatDir_comma_free_witness :
  formatDir (Some {| notebook_dir := "/home/user" |}) "/home/user/sub" = Some "sub"
  /\ formatDir (Some {| notebook_dir := "/home/user" |}) "/home/user"
     = Some "<workspace_root>"
  /\ formatDir (Some {| notebook_dir := "/home/user" |}) "/other/path"
     = Some "/other/path".
Proof.
  split; [|split].
  - apply (proj1 (formatDir_comma_free "/home/user" "/home/user/sub"
                    ltac:(discriminate) ltac:(reflexivity)) "/sub").
    reflexivity.
  - apply (proj1 (proj2 (formatDir_comma_free "/home/user" "/home/user"
                    ltac:(discriminate) ltac:(reflexivity)))).
    reflexivity.
  - apply (proj2 (proj2 (formatDir_comma_free "/home/user" "/other/path"
                    ltac:(discriminate) ltac:(reflexivity)))).
    reflexivity.
Defined.

End FormatDirClaims.

Module FormatDirLabelClaims.
Import JsString FormatDir FormatDirSpec.

(** C9, at an input where the code departs from it.  With the root
    ["/home/user"], the second segment of
    ["/home/user/a,run:gs://bucket/logs"] has the label ["run"] and the path
    ["gs://bucket/logs"]; the grammar keeps that path, the code keeps only
    its part before the next colon. *)
Theorem formatDir_cuts_path_at_second_colon :
  let cfg := Some {| notebook_dir := "/home/user" |} in
  formatDir cfg "/home/user/a,run:gs://bucket/logs" = Some "a,run:gs" /\
  formatDir_spec cfg "/home/user/a,run:gs://bucket/logs" = "a,run:gs://bucket/logs" /\
  formatDir cfg "/home/user/a,run:gs://bucket/logs"
    <> Some (formatDir_spec cfg "/home/user/a,run:gs://bucket/logs") /\
  formatDir cfg "/home/user/a,label:/home/user/b" = Some "a,label:b" /\
  formatDir_spec cfg "/home/user/a,label:/home/user/b" = "a,label:b".
Proof. vm_compute. repeat split. discriminate. Qed.

End FormatDirLabelClaims.

(** ** Facts about the array helpers *)

Module JsArrayFacts.
Import JsArray.

Lemma findFirstIndex_range {A} (fn : A -> bool) l :
  findFirstIndex fn l = -1 \/ 0 <= findFirstIndex fn l.
Proof.
  induction l as [|x l IH]; cbn [findFirstIndex]; [lia|].
  destruct (fn x); [lia|].
  destruct (Z.eqb_spec (findFirstIndex fn l) (-1)); lia.
Qed.

Lemma findFirstIndex_none {A} (fn : A -> bool) l :
  findFirstIndex fn l = -1 <-> Forall (fun x => fn x = false) l.
Proof.
  induction l as [|x l IH]; cbn [findFirstIndex].
  - split; [constructor|reflexivity].
  - destruct (fn x) eqn:Hx.
    + split; [discriminate|]. intros H. apply Forall_cons in H as [H _]. congruence.
    + destruct (Z.eqb_spec (findFirstIndex fn l) (-1)) as [E|E].
      * split; [|reflexivity]. intros _. constructor; [assumption|]. apply IH, E.
      * split.
        -- destruct (findFirstIndex_range fn l); lia.
        -- intros H. apply Forall_cons in H as [_ H]. apply IH in H. contradiction.
Qed.

(** When the index is not [-1] it points at the first element that
    satisfies [fn]. *)
Lemma findFirstIndex_some {A} (fn : A -> bool) l :
  findFirstIndex fn l <> -1 ->
  exists before x after,
    l = (before ++ x :: after)%list /\ fn x = true /\
    Forall (fun y => fn y = false) before /\
    Z.to_nat (findFirstIndex fn l) = length before.
Proof.
  induction l as [|x l IH]; cbn [findFirstIndex]; [congruence|].
  destruct (fn x) eqn:Hx.
  - intros _. exists [], x, l. repeat split; [assumption|constructor].
  - destruct (Z.eqb_spec (findFirstIndex fn l) (-1)) as [E|E]; [congruence|].
    intros _. destruct (IH E) as (before & y & after & -> & Hy & Hb & Hi).
    exists (x :: before), y, after. repeat split; try assumption.
    + constructor; assumption.
    + destruct (findFirstIndex_range fn (before ++ y :: after)); [contradiction|].
      cbn [length]. lia.
Qed.

Lemma findFirstIndex_first {A} (fn : A -> bool) before x after :
  fn x = true -> Forall (fun y => fn y = false) before ->
  findFirstIndex fn (before ++ x :: after) = Z.of_nat (length before).
Proof.
  intros Hx Hb. induction Hb as [|y before Hy Hb IH]; cbn [findFirstIndex app length].
  - rewrite Hx. reflexivity.
  - rewrite Hy, IH.
    destruct (Z.eqb_spec (Z.of_nat (length before)) (-1)); lia.
Qed.

Lemma splice1_first {A} (before : list A) x after :
  splice1 (Z.of_nat (length before)) (before ++ x :: after) = (before ++ after)%list.
Proof. unfold splice1. rewrite Nat2Z.id. apply delete_middle. Qed.

Lemma deepEqual_spec a b : deepEqual a b = true <-> a = b.
Proof. unfold deepEqual. apply bool_decide_eq_true. Qed.

Lemma indexOf_none array x : indexOf array x = -1 <-> x ∉ array.
Proof.
  unfold indexOf. rewrite findFirstIndex_none, Forall_forall.
  split.
  - intros H Hin. specialize (H x Hin). rewrite String.eqb_refl in H. discriminate.
  - intros H y Hy. apply String.eqb_neq. intros ->. contradiction.
Qed.

Lemma set_add_elem {A} `{EqDecision A} (x : A) set : x ∈ set_add x set.
Proof.
  unfold set_add. destruct (decide (x ∈ set)); [assumption|].
  apply elem_of_app. right. apply list_elem_of_here.
Qed.

Lemma set_add_keeps {A} `{EqDecision A} (x y : A) set :
  y ∈ set -> y ∈ set_add x set.
Proof.
  unfold set_add. destruct (decide (x ∈ set)); [trivial|].
  intros H. apply elem_of_app. left. assumption.
Qed.

Lemma set_add_inv {A} `{EqDecision A} (x y : A) set :
  y ∈ set_add x set -> y = x \/ y ∈ set.
Proof.
  unfold set_add. destruct (decide (x ∈ set)); [auto|].
  intros H. apply elem_of_app in H as [H|H]; [auto|].
  apply list_elem_of_singleton in H. auto.
Qed.

Lemma set_add_new {A} `{EqDecision A} (x : A) set :
  x ∉ set -> set_add x set = (set ++ [x])%list.
Proof. unfold set_add. destruct (decide (x ∈ set)); [contradiction|reflexivity]. Qed.

End JsArrayFacts.

(** ** Facts about the elementary state changes *)

Module ManagerFacts.
Import JsArray JsArrayFacts TensorboardManager ManagerSpec.

Lemma models_update_models f m : models (update_models f m) = f (models m).
Proof. unfold models, read. cbn. rewrite lookup_insert_eq. reflexivity. Qed.

Lemma models_assign_models a m : models (assign_models a m) = a.
Proof. unfold models, read. cbn. rewrite lookup_insert_eq. reflexivity. Qed.

(** Assignment creates a new array: an array that exists keeps its
    contents. *)
Lemma read_assign_models r a m :
  r ∈ dom (arrays m) -> read r (assign_models a m) = read r m.
Proof.
  intros Hr. unfold read. cbn. rewrite lookup_insert_ne; [reflexivity|].
  intros E. rewrite <- E in Hr. exact (is_fresh (dom (arrays m)) Hr).
Qed.

Lemma dom_assign_models r a m :
  r ∈ dom (arrays m) -> r ∈ dom (arrays (assign_models a m)).
Proof. intros H. cbn. rewrite dom_insert_L. set_solver. Qed.

Lemma dom_assign_models_ref a m :
  _models (assign_models a m) ∈ dom (arrays (assign_models a m)).
Proof. cbn. rewrite dom_insert_L. set_solver. Qed.

Lemma dom_update_models r f m :
  r ∈ dom (arrays m) -> r ∈ dom (arrays (update_models f m)).
Proof. intros H. cbn. rewrite dom_insert_L. set_solver. Qed.

Lemma read_update_models_ne r f m :
  r <> _models m -> read r (update_models f m) = read r m.
Proof.
  intros Hr. unfold read. cbn. rewrite lookup_insert_ne; [reflexivity|congruence].
Qed.

Lemma names_app a b : names (a ++ b) = (names a ++ names b)%list.
Proof. apply fmap_app. Qed.

Lemma name_in_names x ms : x ∈ ms -> IModel.name x ∈ names ms.
Proof. intros H. apply list_elem_of_fmap. exists x. auto. Qed.

Lemma named_absent name ms :
  findFirstIndex (named name) ms = -1 <-> name ∉ names ms.
Proof.
  rewrite findFirstIndex_none, Forall_forall. split.
  - intros H Hin. apply list_elem_of_fmap in Hin as (x & -> & Hx).
    specialize (H x Hx). unfold named in H. rewrite String.eqb_refl in H.
    discriminate.
  - intros H x Hx. unfold named. apply String.eqb_neq. intros E.
    apply H. rewrite <- E. apply name_in_names. assumption.
Qed.

(** A name that occurs in the array has a first occurrence. *)
Lemma named_present name ms :
  name ∈ names ms ->
  exists before x after,
    ms = (before ++ x :: after)%list /\ IModel.name x = name /\
    (name ∉ names before) /\
    findFirstIndex (named name) ms = Z.of_nat (length before).
Proof.
  intros Hin.
  assert (Hne : findFirstIndex (named name) ms <> -1).
  { intros E. apply named_absent in E. contradiction. }
  destruct (findFirstIndex_some _ _ Hne) as (before & x & after & E & Hx & Hb & _).
  exists before, x, after. split; [assumption|].
  split; [apply String.eqb_eq; exact Hx|].
  split.
  - apply named_absent. apply findFirstIndex_none. assumption.
  - rewrite E. apply findFirstIndex_first; assumption.
Qed.

Section Operations.
Variable dispose_emits_terminated : ITensorboard.t -> bool.


(** *** [_onTerminated] *)

Lemma _onTerminated_absent name m :
  name ∉ names (models m) -> _onTerminated name m = m.
Proof.
  intros H. unfold _onTerminated. fold (named name).
  apply named_absent in H. rewrite H. reflexivity.
Qed.

Lemma _onTerminated_present name m before x after :
  models m = (before ++ x :: after)%list -> IModel.name x = name ->
  name ∉ names before ->
  _onTerminated name m =
  emit (before ++ after) (update_models (splice1 (Z.of_nat (length before))) m).
Proof.
  intros E Hx Hb. unfold _onTerminated. fold (named name).
  assert (Hi : findFirstIndex (named name) (models m) = Z.of_nat (length before)).
  { rewrite E. apply findFirstIndex_first.
    - unfold named. rewrite Hx. apply String.eqb_refl.
    - apply findFirstIndex_none, named_absent. assumption. }
  rewrite Hi.
  destruct (Z.eqb_spec (Z.of_nat (length before)) (-1)) as [Hneg|_]; [lia|].
  cbn [negb]. rewrite models_update_models, E, splice1_first. reflexivity.
Qed.

(** The two cases of [_onTerminated] in one statement. *)
Lemma _onTerminated_cases name m :
  ((name ∉ names (models m)) /\ _onTerminated name m = m) \/
  (exists before x after,
     models m = (before ++ x :: after)%list /\ IModel.name x = name /\
     (name ∉ names before) /\
     _onTerminated name m =
     emit (before ++ after)
       (update_models (splice1 (Z.of_nat (length before))) m)).
Proof.
  destruct (decide (name ∈ names (models m))) as [Hin|Hout].
  - right. destruct (named_present _ _ Hin) as (before & x & after & E & Hx & Hb & _).
    exists before, x, after. repeat split; try assumption.
    apply (_onTerminated_present name m before x after); assumption.
  - left. split; [assumption|]. apply _onTerminated_absent. assumption.
Qed.

(** What [_onTerminated] leaves alone. *)
Lemma _onTerminated_frame name m :
  _tensorboards (_onTerminated name m) = _tensorboards m /\
  _models (_onTerminated name m) = _models m /\
  (exists d, effects (_onTerminated name m) = (effects m ++ d)%list /\
             forall e, e ∈ d -> exists snapshot, e = Emit snapshot) /\
  (forall r, r ∈ dom (arrays m) -> r ∈ dom (arrays (_onTerminated name m))) /\
  (forall r, r <> _models m -> read r (_onTerminated name m) = read r m).
Proof.
  destruct (_onTerminated_cases name m) as [[_ ->]|(b & x & a & _ & _ & _ & ->)].
  - repeat split; try reflexivity; try tauto.
    exists []. split; [symmetry; apply app_nil_r|]. intros e He. inversion He.
  - repeat split; try reflexivity.
    + eexists. split; [reflexivity|]. intros e He.
      apply list_elem_of_singleton in He. eauto.
    + intros r Hr. exact (dom_update_models r _ m Hr).
    + intros r Hr. apply (read_update_models_ne r _ m Hr).
Qed.

(** Entries under another name stay. *)
Lemma _onTerminated_keeps name m n :
  n <> name -> n ∈ names (models m) ->
  n ∈ names (models (_onTerminated name m)).
Proof.
  intros Hn Hin.
  destruct (_onTerminated_cases name m) as [[_ ->]|(b & x & a & E & Hx & _ & ->)];
    [assumption|].
  change (n ∈ names (models (update_models (splice1 (Z.of_nat (length b))) m))).
  rewrite models_update_models, E, splice1_first.
  rewrite E, names_app in Hin. rewrite names_app.
  apply elem_of_app in Hin as [Hin|Hin]; apply elem_of_app; [left; assumption|].
  cbn in Hin. apply elem_of_cons in Hin as [Hin|Hin]; [congruence|right; assumption].
Qed.

Lemma _onTerminated_empty name m :
  models m = [] -> _onTerminated name m = m.
Proof.
  intros H. apply _onTerminated_absent. rewrite H. cbn. apply not_elem_of_nil.
Qed.

End Operations.

(** *** The dispose loops *)

Lemma filter_ext_in {A} (P Q : A -> Prop)
    `{forall x, Decision (P x)} `{forall x, Decision (Q x)} (l : list A) :
  (forall x, x ∈ l -> (P x <-> Q x)) -> filter P l = filter Q l.
Proof.
  induction l as [|x l IH]; intros HPQ; [reflexivity|].
  assert (IH' : filter P l = filter Q l).
  { apply IH. intros y Hy. apply HPQ. apply list_elem_of_further. assumption. }
  destruct (decide (P x)) as [HP|HP].
  - assert (HQ : Q x) by (apply HPQ; [apply list_elem_of_here|assumption]).
    rewrite (filter_cons_True P), (filter_cons_True Q) by assumption.
    congruence.
  - assert (HQ : ~ Q x).
    { intros HQ. apply HP. apply HPQ; [apply list_elem_of_here|assumption]. }
    rewrite (filter_cons_False P), (filter_cons_False Q) by assumption.
    assumption.
Qed.

Lemma filter_all {A} (P : A -> Prop) `{forall x, Decision (P x)} (l : list A) :
  (forall x, x ∈ l -> P x) -> filter P l = l.
Proof.
  induction l as [|x l IH]; intros HP; [reflexivity|].
  rewrite filter_cons_True by (apply HP, list_elem_of_here).
  f_equal. apply IH. intros y Hy. apply HP, list_elem_of_further, Hy.
Qed.

(** [delete_each] changes the set of handles only. *)
Lemma delete_each_frame toRemove m :
  arrays (delete_each toRemove m) = arrays m /\
  _models (delete_each toRemove m) = _models m /\
  effects (delete_each toRemove m) = effects m /\
  _tensorboards (delete_each toRemove m) =
    filter (fun h => h ∉ toRemove) (_tensorboards m).
Proof.
  unfold delete_each. revert m.
  induction toRemove as [|h toRemove IH]; intros m; cbn [foldl].
  - repeat split; try reflexivity.
    symmetry. apply filter_all. intros x _. apply not_elem_of_nil.
  - destruct (IH (set_tensorboards (set_delete h (_tensorboards m)) m))
      as (Ha & Hm & He & Ht).
    rewrite Ha, Hm, He, Ht. repeat split; try reflexivity.
    cbn [_tensorboards set_tensorboards]. unfold set_delete.
    rewrite list_filter_filter. apply list_filter_iff.
    intros x. rewrite not_elem_of_cons. tauto.
Qed.

Lemma models_delete_each toRemove m :
  models (delete_each toRemove m) = models m.
Proof.
  destruct (delete_each_frame toRemove m) as (Ha & Hm & _).
  unfold models, read. rewrite Ha, Hm. reflexivity.
Qed.

Section Loops.
Variable dispose_emits_terminated : ITensorboard.t -> bool.
Variable doomed : ITensorboard.t -> bool.

Local Abbreviation dispose_handle :=
  (TensorboardManager.dispose_handle dispose_emits_terminated).

Local Abbreviation dispose_step :=
  (TensorboardManager.dispose_step dispose_emits_terminated doomed).

(** [toRemove] collects the doomed handles. *)
Lemma dispose_loop_snd l m acc :
  snd (foldl dispose_step (m, acc) l) =
  (acc ++ filter (fun h => doomed h = true) l)%list.
Proof.
  revert m acc. induction l as [|h l IH]; intros m acc; cbn [foldl].
  - rewrite filter_nil, app_nil_r. reflexivity.
  - unfold TensorboardManager.dispose_step at 2. destruct (doomed h) eqn:Hd.
    + rewrite IH, filter_cons_True by assumption.
      rewrite <- app_assoc. reflexivity.
    + rewrite IH, filter_cons_False by congruence. reflexivity.
Qed.

(** Whatever every doomed [dispose] preserves, the loop preserves. *)
Lemma dispose_loop_ind (P : t -> Prop) :
  (forall h m, doomed h = true -> P m -> P (dispose_handle h m)) ->
  forall l m acc, P m -> P (fst (foldl dispose_step (m, acc) l)).
Proof.
  intros Hstep l. induction l as [|h l IH]; intros m acc Hm; cbn [foldl].
  - exact Hm.
  - unfold TensorboardManager.dispose_step at 2. destruct (doomed h) eqn:Hd.
    + apply IH. apply Hstep; assumption.
    + apply IH. assumption.
Qed.

(** What one [dispose] leaves alone. *)
Lemma dispose_handle_frame h m :
  _tensorboards (dispose_handle h m) = _tensorboards m /\
  _models (dispose_handle h m) = _models m /\
  (exists d, effects (dispose_handle h m) = (effects m ++ Dispose h :: d)%list) /\
  (forall r, r ∈ dom (arrays m) -> r ∈ dom (arrays (dispose_handle h m))) /\
  (forall r, r <> _models m -> read r (dispose_handle h m) = read r m).
Proof.
  unfold TensorboardManager.dispose_handle.
  destruct (dispose_emits_terminated h).
  - destruct (_onTerminated_frame (ITensorboard.name h) (log (Dispose h) m))
      as (Ht & Hm & (d & He & _) & Hd & Hr).
    rewrite Ht, Hm, He. repeat split; try reflexivity; try assumption.
    exists d. cbn [effects log]. rewrite <- app_assoc. reflexivity.
  - repeat split; try reflexivity; try tauto.
    exists []. reflexivity.
Qed.

Lemma dispose_handle_empty h m :
  models m = [] -> dispose_handle h m = log (Dispose h) m.
Proof.
  intros H. unfold TensorboardManager.dispose_handle.
  destruct (dispose_emits_terminated h); [|reflexivity].
  apply _onTerminated_empty. exact H.
Qed.

Local Abbreviation dispose_each :=
  (TensorboardManager.dispose_each dispose_emits_terminated doomed).
Local Abbreviation dispose_and_delete :=
  (TensorboardManager.dispose_and_delete dispose_emits_terminated doomed).

Lemma dispose_and_delete_unfold m :
  dispose_and_delete m =
  delete_each (filter (fun h => doomed h = true) (_tensorboards m))
    (fst (dispose_each m)).
Proof.
  unfold TensorboardManager.dispose_and_delete.
  pose proof (dispose_loop_snd (_tensorboards m) m []) as Hs.
  unfold TensorboardManager.dispose_each in *.
  destruct (foldl dispose_step (m, []) (_tensorboards m)) as [m1 toRemove].
  cbn in Hs. subst toRemove. reflexivity.
Qed.

Lemma dispose_each_frame m :
  _tensorboards (fst (dispose_each m)) = _tensorboards m /\
  _models (fst (dispose_each m)) = _models m /\
  (exists d, effects (fst (dispose_each m)) = (effects m ++ d)%list) /\
  (forall r, r ∈ dom (arrays m) -> r ∈ dom (arrays (fst (dispose_each m)))) /\
  (forall r, r <> _models m -> read r (fst (dispose_each m)) = read r m).
Proof.
  unfold TensorboardManager.dispose_each.
  apply (dispose_loop_ind (fun m' =>
    _tensorboards m' = _tensorboards m /\
    _models m' = _models m /\
    (exists d, effects m' = (effects m ++ d)%list) /\
    (forall r, r ∈ dom (arrays m) -> r ∈ dom (arrays m')) /\
    (forall r, r <> _models m -> read r m' = read r m))).
  - intros h m' _ (Ht & Hm & (d & He) & Hd & Hr).
    destruct (dispose_handle_frame h m') as (Ht' & Hm' & (d' & He') & Hd' & Hr').
    rewrite Ht', Hm', He', Ht, Hm, He. repeat split; try reflexivity.
    + eexists. rewrite <- app_assoc. reflexivity.
    + intros r Hin. apply Hd', Hd, Hin.
    + intros r Hne. rewrite Hr' by congruence. apply Hr, Hne.
  - repeat split; try reflexivity; try tauto.
    exists []. symmetry. apply app_nil_r.
Qed.

(** Every doomed handle of the set has been disposed of. *)
Lemma dispose_loop_disposed l h :
  h ∈ l -> doomed h = true ->
  forall m acc, Dispose h ∈ effects (fst (foldl dispose_step (m, acc) l)).
Proof.
  intros Hin Hd. induction l as [|x l IH]; [inversion Hin|].
  intros m acc. cbn [foldl].
  apply elem_of_cons in Hin as [<-|Hin].
  - unfold TensorboardManager.dispose_step at 2. rewrite Hd.
    apply (dispose_loop_ind (fun m' => Dispose h ∈ effects m')).
    + intros h' m' _ Hm'.
      destruct (dispose_handle_frame h' m') as (_ & _ & (d & ->) & _).
      apply elem_of_app. left. assumption.
    + destruct (dispose_handle_frame h m) as (_ & _ & (d & ->) & _).
      apply elem_of_app. right. apply list_elem_of_here.
  - unfold TensorboardManager.dispose_step at 2.
    destruct (doomed x); apply IH; assumption.
Qed.

(** With an empty [_models] the loop only disposes. *)
Lemma dispose_loop_empty l :
  forall m acc, models m = [] ->
  foldl dispose_step (m, acc) l =
  (foldl (fun m h => log (Dispose h) m) m (filter (fun h => doomed h = true) l),
   (acc ++ filter (fun h => doomed h = true) l)%list).
Proof.
  induction l as [|h l IH]; intros m acc Hm; cbn [foldl].
  - rewrite filter_nil, app_nil_r. reflexivity.
  - unfold TensorboardManager.dispose_step at 2. destruct (doomed h) eqn:Hd.
    + rewrite dispose_handle_empty by assumption.
      rewrite IH by exact Hm.
      rewrite filter_cons_True by assumption. cbn [foldl].
      rewrite <- app_assoc. reflexivity.
    + rewrite IH by exact Hm.
      rewrite filter_cons_False by congruence. reflexivity.
Qed.

Lemma log_each_frame {A} (f : A -> Effect) (l : list A) m :
  let m' := foldl (fun m x => log (f x) m) m l in
  arrays m' = arrays m /\ _models m' = _models m /\
  _tensorboards m' = _tensorboards m /\
  effects m' = (effects m ++ (f <$> l))%list.
Proof.
  revert m. induction l as [|x l IH]; intros m; cbn [foldl].
  - repeat split; try reflexivity. cbn. symmetry. apply app_nil_r.
  - destruct (IH (log (f x) m)) as (Ha & Hm & Ht & He).
    cbn zeta. rewrite Ha, Hm, Ht, He. repeat split; try reflexivity.
    cbn [effects log fmap list_fmap]. rewrite <- app_assoc. reflexivity.
Qed.

(** *** [dispose_and_delete] *)

Lemma dispose_and_delete_tensorboards m :
  _tensorboards (dispose_and_delete m) =
  filter (fun h => doomed h = false) (_tensorboards m).
Proof.
  rewrite dispose_and_delete_unfold.
  destruct (delete_each_frame
              (filter (fun h => doomed h = true) (_tensorboards m))
              (fst (dispose_each m))) as (_ & _ & _ & ->).
  destruct (dispose_each_frame m) as (-> & _).
  apply filter_ext_in. intros h Hh.
  rewrite list_elem_of_filter. destruct (doomed h); split.
  - intros H. exfalso. apply H. split; [reflexivity|assumption].
  - discriminate.
  - reflexivity.
  - intros _ [H _]. discriminate.
Qed.

Lemma dispose_and_delete_frame m :
  _models (dispose_and_delete m) = _models m /\
  (exists d, effects (dispose_and_delete m) = (effects m ++ d)%list) /\
  (forall r, r ∈ dom (arrays m) -> r ∈ dom (arrays (dispose_and_delete m))) /\
  (forall r, r <> _models m -> read r (dispose_and_delete m) = read r m).
Proof.
  rewrite dispose_and_delete_unfold.
  destruct (delete_each_frame
              (filter (fun h => doomed h = true) (_tensorboards m))
              (fst (dispose_each m))) as (Ha & Hm & He & _).
  destruct (dispose_each_frame m) as (_ & Hm' & He' & Hd' & Hr').
  unfold read. rewrite Ha, Hm, He. repeat split; assumption.
Qed.

Lemma dispose_and_delete_disposed m h :
  h ∈ _tensorboards m -> doomed h = true ->
  Dispose h ∈ effects (dispose_and_delete m).
Proof.
  intros Hin Hd. rewrite dispose_and_delete_unfold.
  destruct (delete_each_frame
              (filter (fun h => doomed h = true) (_tensorboards m))
              (fst (dispose_each m))) as (_ & _ & -> & _).
  apply dispose_loop_disposed; assumption.
Qed.

Lemma dispose_and_delete_empty m :
  models m = [] ->
  models (dispose_and_delete m) = [] /\
  arrays (dispose_and_delete m) = arrays m /\
  effects (dispose_and_delete m) =
    (effects m ++
     (Dispose <$> filter (fun h => doomed h = true) (_tensorboards m)))%list.
Proof.
  intros Hm. rewrite dispose_and_delete_unfold.
  destruct (delete_each_frame
              (filter (fun h => doomed h = true) (_tensorboards m))
              (fst (dispose_each m))) as (Ha & Hr & He & _).
  rewrite models_delete_each, Ha, He.
  unfold TensorboardManager.dispose_each.
  rewrite dispose_loop_empty by assumption. cbn [fst].
  destruct (log_each_frame Dispose (filter (fun h => doomed h = true) (_tensorboards m)) m)
    as (Ha' & Hr' & _ & He').
  unfold models, read in *. rewrite Ha', Hr', He'. auto.
Qed.

(** When only handles called [name] are doomed, entries of [_models]
    under another name stay. *)
Lemma dispose_and_delete_keeps name m n :
  (forall h, doomed h = true -> ITensorboard.name h = name) ->
  n <> name -> n ∈ names (models m) ->
  n ∈ names (models (dispose_and_delete m)).
Proof.
  intros Hdoomed Hn Hin. rewrite dispose_and_delete_unfold, models_delete_each.
  unfold TensorboardManager.dispose_each.
  apply (dispose_loop_ind (fun m' => n ∈ names (models m'))); [|assumption].
  intros h m' Hd Hm'. unfold TensorboardManager.dispose_handle.
  destruct (dispose_emits_terminated h); [|exact Hm'].
  apply _onTerminated_keeps; [|exact Hm'].
  rewrite (Hdoomed h Hd). assumption.
Qed.

End Loops.

End ManagerFacts.

Module FixtureFacts.
Import TensorboardManager Fixtures.

Example started_state :
  models started = [tb1] /\ _tensorboards started = [h1] /\
  effects started =
    [RequestListRunning; SetInterval; RequestStaticConfig; Emit [tb1]].
Proof. vm_compute. auto. Qed.

(** The scenario of the testable properties: a poll that reports [tb1], the
    same poll again, then a poll that reports nothing. *)
Example refresh_scenario :
  let m1 := _refreshRunning_then never [tb1] (set_tensorboards [h1] constructor) in
  let m2 := _refreshRunning_then never [tb1] m1 in
  let m3 := _refreshRunning_then never [] m2 in
  effects m1 = (effects constructor ++ [Emit [tb1]])%list /\
  effects m2 = effects m1 /\
  effects m3 = (effects m2 ++ [Dispose h1; Emit []])%list /\
  _tensorboards m3 = [].
Proof. vm_compute. auto. Qed.

End FixtureFacts.

(** ** The claims about the registry *)

Module ManagerClaims.
Import JsArray JsArrayFacts TensorboardManager ManagerSpec ManagerFacts.

(** C1. When the answer to a poll arrives, a change event is emitted if and
    only if the poll succeeded with a list that is not deep-equal to the
    cached [_models]; when the list is deep-equal, nothing is emitted and
    [_models] and the handle set are left as they were. *)
Theorem refreshRunning_emits_iff_changed
    (dispose_emits_terminated : ITensorboard.t -> bool)
    (answer : Settled (list IModel.t)) (m : t) :
  let m' := fst (_refreshRunning_settle dispose_emits_terminated answer m) in
  exists d,
    effects m' = (effects m ++ d)%list /\
    (emits d <->
     exists fetched, answer = Fulfilled fetched /\ deepEqual fetched (models m) = false) /\
    (forall fetched, answer = Fulfilled fetched -> fetched = models m ->
       d = [] /\ models m' = models m /\ arrays m' = arrays m /\
       _models m' = _models m /\ _tensorboards m' = _tensorboards m).
Proof.
  destruct answer as [fetched|reason]; cbn [_refreshRunning_settle fst].
  - unfold _refreshRunning_then.
    change (models (set_isReady true m)) with (models m).
    destruct (deepEqual fetched (models m)) eqn:Heq; cbn [negb].
    + exists []. split; [symmetry; apply app_nil_r|]. split.
      * split.
        -- intros [s Hs]. inversion Hs.
        -- intros (f & Hf & Hne). injection Hf as <-. congruence.
      * intros f _ _. repeat split; reflexivity.
    + destruct (dispose_and_delete_frame dispose_emits_terminated
                  (fun h => (indexOf (names fetched) (ITensorboard.name h) =? -1)%Z)
                  (set_isReady true m)) as (_ & (d & Hd) & _).
      exists (d ++ [Emit fetched])%list. split.
      * cbn [effects emit log assign_models]. rewrite Hd.
        cbn [effects set_isReady]. rewrite <- app_assoc. reflexivity.
      * split.
        -- split.
           ++ intros _. exists fetched. auto.
           ++ intros _. exists fetched. apply elem_of_app. right.
              apply list_elem_of_here.
        -- intros f Hf Hm. injection Hf as <-.
           apply deepEqual_spec in Hm. congruence.
  - exists []. split; [symmetry; apply app_nil_r|]. split.
    + split.
      * intros [s Hs]. inversion Hs.
      * intros (f & Hf & _). discriminate.
    + intros f Hf. discriminate.
Qed.

(** C6. When [Tensorboard.listRunning] fails, the promise of
    [refreshRunning] is rejected with the same reason; [_models] and the
    handle set are as before the call, and the only effect of the call is
    the request: no change event. *)
Theorem refreshRunning_failure_changes_nothing
    (dispose_emits_terminated : ITensorboard.t -> bool)
    (reason : string) (m : t) :
  let sent := refreshRunning_call m in
  let '(m', result) :=
    _refreshRunning_settle dispose_emits_terminated (Rejected reason) sent in
  result = Rejected reason /\
  m' = sent /\
  models m' = models m /\
  arrays m' = arrays m /\
  _tensorboards m' = _tensorboards m /\
  _isReady m' = _isReady m /\
  effects m' = (effects m ++ [RequestListRunning])%list.
Proof. cbn. repeat split; reflexivity. Qed.

(** The synchronous part of [shutdown(name)] when [x] is the first entry of
    [_models] under that name. *)
Lemma shutdown_call_present (name : string) (m : t) before x after :
  models m = (before ++ x :: after)%list -> IModel.name x = name ->
  (name ∉ names before) ->
  shutdown_call name m =
  (log (RequestShutdown name)
     (emit (before ++ after)
        (update_models (splice1 (Z.of_nat (length before))) m)),
   Pending).
Proof.
  intros E Hx Hb. unfold shutdown_call. fold (named name).
  assert (Hi : findFirstIndex (named name) (models m) = Z.of_nat (length before)).
  { rewrite E. apply findFirstIndex_first.
    - unfold named. rewrite Hx. apply String.eqb_refl.
    - apply findFirstIndex_none, named_absent. assumption. }
  rewrite Hi.
  destruct (Z.eqb_spec (Z.of_nat (length before)) (-1)) as [Hneg|_]; [lia|].
  rewrite models_update_models, E, splice1_first. reflexivity.
Qed.

Lemma shutdown_call_absent name m :
  (name ∉ names (models m)) -> shutdown_call name m = (m, Done (Fulfilled tt)).
Proof.
  intros H. apply named_absent in H. unfold shutdown_call. fold (named name).
  rewrite H. reflexivity.
Qed.

(** The synchronous part of [shutdown] never touches the handle set. *)
Lemma shutdown_call_tensorboards name m :
  _tensorboards (fst (shutdown_call name m)) = _tensorboards m.
Proof.
  destruct (decide (name ∈ names (models m))) as [Hin|Hout].
  - destruct (named_present _ _ Hin) as (before & x & after & E & Hx & Hb & _).
    rewrite (shutdown_call_present name m before x after E Hx Hb). reflexivity.
  - rewrite shutdown_call_absent by assumption. reflexivity.
Qed.

(** C3. For a name present in [_models], the synchronous part of
    [shutdown(name)] removes the first entry with that name, emits the
    change event with the new list, and only then calls
    [Tensorboard.shutdown]; the promise is still pending.  When names are
    unique in [_models], the name is gone from it. *)
Theorem shutdown_removes_before_request (name : string) (m : t) :
  name ∈ names (models m) ->
  let m' := fst (shutdown_call name m) in
  exists before x after,
    models m = (before ++ x :: after)%list /\
    IModel.name x = name /\ (name ∉ names before) /\
    snd (shutdown_call name m) = Pending /\
    models m' = (before ++ after)%list /\
    effects m' =
      (effects m ++ [Emit (before ++ after); RequestShutdown name])%list /\
    _tensorboards m' = _tensorboards m /\
    (NoDup (names (models m)) -> name ∉ names (models m')).
Proof.
  intros Hin m'.
  destruct (named_present _ _ Hin) as (before & x & after & E & Hx & Hb & _).
  exists before, x, after.
  pose proof (shutdown_call_present name m before x after E Hx Hb) as Hcall.
  assert (Hm' : models m' = (before ++ after)%list).
  { subst m'. rewrite Hcall. cbn [fst].
    change (models (update_models (splice1 (Z.of_nat (length before))) m)
            = (before ++ after)%list).
    rewrite models_update_models, E, splice1_first. reflexivity. }
  repeat split; try assumption.
  - rewrite Hcall. reflexivity.
  - subst m'. rewrite Hcall. cbn [fst effects log emit update_models].
    rewrite <- app_assoc. reflexivity.
  - subst m'. rewrite Hcall. reflexivity.
  - intros Hnd. rewrite Hm'. rewrite E, names_app in Hnd. cbn in Hnd.
    apply NoDup_app in Hnd as (_ & Hdisj & Hnd').
    apply NoDup_cons in Hnd' as [Hx' _]. rewrite Hx in Hx'.
    rewrite names_app. intros H. apply elem_of_app in H as [H|H]; contradiction.
Qed.

Lemma shutdown_removes_before_request_witness :
  exists before x after,
    models Fixtures.started = (before ++ x :: after)%list /\
    IModel.name x = "tb1" /\ ("tb1" ∉ names before) /\
    snd (shutdown_call "tb1" Fixtures.started) = Pending /\
    models (fst (shutdown_call "tb1" Fixtures.started)) = (before ++ after)%list /\
    effects (fst (shutdown_call "tb1" Fixtures.started)) =
      (effects Fixtures.started ++ [Emit (before ++ after); RequestShutdown "tb1"])%list /\
    _tensorboards (fst (shutdown_call "tb1" Fixtures.started)) =
      _tensorboards Fixtures.started /\
    (NoDup (names (models Fixtures.started)) ->
     "tb1" ∉ names (models (fst (shutdown_call "tb1" Fixtures.started)))).
Proof.
  apply (shutdown_removes_before_request "tb1" Fixtures.started).
  vm_compute. apply list_elem_of_here.
Defined.

(** With the name present, the promise of [shutdown] is the one its [then]
    returns. *)
Lemma shutdown_run_present
    (dispose_emits_terminated : ITensorboard.t -> bool)
    (name : string) (answer : Settled unit) (m : t) :
  name ∈ names (models m) ->
  shutdown_run dispose_emits_terminated name answer m =
  shutdown_settle dispose_emits_terminated name answer (fst (shutdown_call name m)).
Proof.
  intros Hin.
  destruct (named_present _ _ Hin) as (before & x & after & E & Hx & Hb & _).
  unfold shutdown_run.
  rewrite (shutdown_call_present name m before x after E Hx Hb). reflexivity.
Qed.

Lemma shutdown_then_tensorboards
    (dispose_emits_terminated : ITensorboard.t -> bool) (name : string) (m : t) :
  _tensorboards (shutdown_then dispose_emits_terminated name m) =
  filter (fun h => String.eqb (ITensorboard.name h) name = false) (_tensorboards m).
Proof. unfold shutdown_then. apply dispose_and_delete_tensorboards. Qed.

(** C4, as the code has it.  For a name present in [_models]: when
    [Tensorboard.shutdown] is fulfilled, the promise of [shutdown(name)] is
    fulfilled, every handle with that name has been disposed of and exactly
    the handles with that name have left the handle set; when it is
    rejected, the promise of [shutdown(name)] is rejected with the same
    reason and nothing happens after the synchronous part: the handle set
    is as it was. *)
Theorem shutdown_settles
    (dispose_emits_terminated : ITensorboard.t -> bool)
    (name : string) (answer : Settled unit) (m : t) :
  name ∈ names (models m) ->
  let sent := fst (shutdown_call name m) in
  let m' := fst (shutdown_run dispose_emits_terminated name answer m) in
  let result := snd (shutdown_run dispose_emits_terminated name answer m) in
  match answer with
  | Fulfilled _ =>
      result = Fulfilled tt /\
      _tensorboards m' =
        filter (fun h => String.eqb (ITensorboard.name h) name = false)
               (_tensorboards m) /\
      (forall h, h ∈ _tensorboards m -> ITensorboard.name h = name ->
                 Dispose h ∈ effects m' /\ (h ∉ _tensorboards m'))
  | Rejected reason =>
      result = Rejected reason /\ m' = sent /\
      _tensorboards m' = _tensorboards m
  end.
Proof.
  intros Hin sent m' result.
  pose proof (shutdown_call_tensorboards name m) as Ht. fold sent in Ht.
  subst m' result. rewrite shutdown_run_present by assumption. fold sent.
  destruct answer as [[]|reason]; cbn [shutdown_settle fst snd].
  - split; [reflexivity|].
    rewrite shutdown_then_tensorboards, Ht. split; [reflexivity|].
    intros h Hh Hname. split.
    + apply dispose_and_delete_disposed.
      * rewrite Ht. assumption.
      * rewrite Hname. apply String.eqb_refl.
    + rewrite list_elem_of_filter, Hname, String.eqb_refl.
      intros [? _]. discriminate.
  - repeat split. assumption.
Qed.

Lemma shutdown_settles_witness :
  snd (shutdown_run Fixtures.always "tb1" (Fulfilled tt) Fixtures.started)
    = Fulfilled tt /\
  _tensorboards
    (fst (shutdown_run Fixtures.always "tb1" (Fulfilled tt) Fixtures.started)) = [] /\
  snd (shutdown_run Fixtures.always "tb1" (Rejected "boom") Fixtures.started)
    = Rejected "boom" /\
  _tensorboards
    (fst (shutdown_run Fixtures.always "tb1" (Rejected "boom") Fixtures.started))
    = [Fixtures.h1].
Proof.
  assert (Hin : "tb1" ∈ names (models Fixtures.started)).
  { vm_compute. apply list_elem_of_here. }
  pose proof (shutdown_settles Fixtures.always "tb1" (Fulfilled tt)
                Fixtures.started Hin) as (Hok & Hset & _).
  pose proof (shutdown_settles Fixtures.always "tb1" (Rejected "boom")
                Fixtures.started Hin) as (Hko & _ & Hkept).
  split; [exact Hok|]. split; [rewrite Hset; reflexivity|].
  split; [exact Hko|exact Hkept].
Defined.

(** C4 as stated fails: with [_models = [tb1]] and the handle [h1] of
    [tb1] held, a rejected [Tensorboard.shutdown] rejects the promise of
    [shutdown("tb1")], and [h1] is neither disposed of nor removed. *)
Lemma shutdown_rejection_counterexample :
  let m := Fixtures.started in
  let run := shutdown_run Fixtures.always "tb1" (Rejected "boom") m in
  "tb1" ∈ names (models m) /\
  Fixtures.h1 ∈ _tensorboards m /\
  ITensorboard.name Fixtures.h1 = "tb1" /\
  snd run = Rejected "boom" /\
  snd run <> Fulfilled tt /\
  Fixtures.h1 ∈ _tensorboards (fst run) /\
  (Dispose Fixtures.h1 ∉ effects (fst run)).
Proof.
  vm_compute. repeat split.
  - apply list_elem_of_here.
  - apply list_elem_of_here.
  - discriminate.
  - apply list_elem_of_here.
  - intros H. repeat (apply elem_of_cons in H as [H|H]; [discriminate|]).
    inversion H.
Qed.

(** *** [shutdownAll] *)

Lemma shutdownAll_call_spec (m : t) :
  allocated m ->
  let m1 := fst (shutdownAll_call m) in
  let captured := snd (shutdownAll_call m) in
  captured = _models m /\
  models m1 = [] /\
  read captured m1 = models m /\
  captured ∈ dom (arrays m1) /\
  _tensorboards m1 = _tensorboards m /\
  effects m1 =
    (effects m ++ batch_event (models m) ++ [RequestListRunning])%list.
Proof.
  intros Hwf. unfold shutdownAll_call. cbn [fst snd].
  fold (models m). destruct (models m) as [|x ms] eqn:E; cbn [length batch_event].
  - change (0 <? Z.of_nat 0)%Z with false. cbv iota.
    repeat split; try assumption.
  - assert (Hpos : (0 <? Z.of_nat (S (length ms)))%Z = true)
      by (apply Z.ltb_lt; lia).
    rewrite Hpos. repeat split.
    + apply models_assign_models.
    + change (read (_models m) (assign_models [] m) = x :: ms).
      rewrite read_assign_models by assumption. exact E.
    + apply (dom_assign_models _ [] m Hwf).
    + cbn [effects _refreshRunning_call log emit assign_models].
      rewrite <- app_assoc. reflexivity.
Qed.

Lemma refresh_on_empty (dispose_emits_terminated : ITensorboard.t -> bool)
    (fetched : list IModel.t) (captured : nat) (m : t) :
  models m = [] -> captured ∈ dom (arrays m) ->
  let m' := _refreshRunning_then dispose_emits_terminated fetched m in
  models m' = fetched /\
  read captured m' = read captured m /\
  effects m' = (effects m ++ poll_effects (_tensorboards m) fetched)%list.
Proof.
  intros Hm Hc. unfold _refreshRunning_then.
  change (models (set_isReady true m)) with (models m). rewrite Hm.
  destruct fetched as [|x fetched].
  - change (deepEqual [] []) with true. cbn [negb]. cbv zeta.
    split; [exact Hm|]. split; [reflexivity|].
    cbn [poll_effects]. rewrite app_nil_r. reflexivity.
  - change (deepEqual (x :: fetched) []) with false. cbn [negb].
    set (doomed := fun h : ITensorboard.t =>
           (indexOf (names (x :: fetched)) (ITensorboard.name h) =? -1)%Z).
    destruct (dispose_and_delete_empty dispose_emits_terminated doomed
                (set_isReady true m) Hm) as (_ & Ha & He).
    cbv zeta. split; [apply models_assign_models|]. split.
    + change (read captured (assign_models (x :: fetched)
                (dispose_and_delete dispose_emits_terminated doomed
                   (set_isReady true m))) = read captured m).
      rewrite read_assign_models by (rewrite Ha; exact Hc).
      unfold read. rewrite Ha. reflexivity.
    + cbn [effects emit log assign_models]. rewrite He.
      cbn [effects _tensorboards set_isReady poll_effects].
      rewrite <- app_assoc. do 3 f_equal.
      apply list_filter_iff. intros h. unfold doomed.
      rewrite <- indexOf_none. apply Z.eqb_eq.
Qed.

Lemma shutdownAll_requests_spec (captured : nat) (m : t) :
  let m' := shutdownAll_requests captured m in
  effects m' = (effects m ++ (RequestShutdown <$> names (read captured m)))%list /\
  models m' = models m /\ _tensorboards m' = _tensorboards m.
Proof.
  unfold shutdownAll_requests.
  destruct (log_each_frame (fun model => RequestShutdown (IModel.name model))
              (read captured m) m) as (Ha & Hm & Ht & He).
  cbv zeta. unfold models, read in *. rewrite Ha, Hm, Ht, He.
  repeat split. unfold names. rewrite <- list_fmap_compose. reflexivity.
Qed.

Lemma shutdownAll_then_shutdown_spec
    (dispose_emits_terminated : ITensorboard.t -> bool) (m : t) :
  _tensorboards (shutdownAll_then_shutdown dispose_emits_terminated m) = [] /\
  (forall h, h ∈ _tensorboards m ->
     Dispose h ∈ effects (shutdownAll_then_shutdown dispose_emits_terminated m)).
Proof.
  unfold shutdownAll_then_shutdown. split.
  - rewrite dispose_and_delete_tensorboards. apply elem_of_nil_inv.
    intros h Hh. apply list_elem_of_filter in Hh as [Hh _]. discriminate.
  - intros h Hh. apply dispose_and_delete_disposed; [assumption|reflexivity].
Qed.

(** C5, as the code has it.  [shutdownAll] keeps the array [_models] held;
    when it is not empty, [_models] becomes a new empty array and one
    change event with the empty list is emitted.  Then the backend is
    polled.  A rejected poll ends [shutdownAll] with that rejection, and no
    shutdown is requested.  A fulfilled poll is handled as by
    [refreshRunning]: when it reports running instances, they become
    [_models] again and a second change event announces them; only then is
    one shutdown requested per entry of the array kept at the start, in
    order.  Each fulfilled request disposes of all the handles held and
    empties the handle set. *)
Theorem shutdownAll_polls_before_requests
    (dispose_emits_terminated : ITensorboard.t -> bool)
    (listing : Settled (list IModel.t)) (answers : list (Settled unit))
    (m : t) :
  allocated m ->
  let run := shutdownAll_run dispose_emits_terminated listing answers m in
  let sent := fst (shutdownAll_call m) in
  models sent = [] /\
  effects sent =
    (effects m ++ batch_event (models m) ++ [RequestListRunning])%list /\
  match listing with
  | Rejected reason => run = (sent, Rejected reason)
  | Fulfilled fetched =>
      exists requested : t,
        effects requested =
          (effects sent ++ poll_effects (_tensorboards m) fetched ++
           (RequestShutdown <$> names (models m)))%list /\
        models requested = fetched /\
        fst run =
          foldl (fun m answer =>
                   shutdownAll_shutdown_settle dispose_emits_terminated answer m)
                requested answers /\
        snd run = Promise_all answers
  end /\
  (forall m0,
     _tensorboards (shutdownAll_then_shutdown dispose_emits_terminated m0) = [] /\
     (forall h, h ∈ _tensorboards m0 ->
        Dispose h ∈
          effects (shutdownAll_then_shutdown dispose_emits_terminated m0))).
Proof.
  intros Hwf run sent.
  destruct (shutdownAll_call_spec m Hwf) as (Hc & Hm & Hread & Hdom & Ht & He).
  fold sent in Hm, Hread, Hdom, Ht, He.
  split; [exact Hm|]. split; [exact He|].
  split; [|apply shutdownAll_then_shutdown_spec].
  subst run. unfold shutdownAll_run.
  destruct (shutdownAll_call m) as [m1 captured] eqn:Hcall.
  cbn [fst snd] in *. subst sent.
  destruct listing as [fetched|reason]; cbn [_refreshRunning_settle]; [|reflexivity].
  destruct (refresh_on_empty dispose_emits_terminated fetched captured m1 Hm Hdom)
    as (Hm2 & Hread2 & He2).
  destruct (shutdownAll_requests_spec captured
              (_refreshRunning_then dispose_emits_terminated fetched m1))
    as (He3 & Hm3 & _).
  eexists. split; [|split; [|split; reflexivity]].
  - rewrite He3, He2, Hread2, Hread, Ht, <- app_assoc. reflexivity.
  - rewrite Hm3. exact Hm2.
Qed.

Lemma shutdownAll_polls_before_requests_witness :
  exists requested : t,
    effects requested =
      (effects (fst (shutdownAll_call Fixtures.started)) ++
       poll_effects [Fixtures.h1] [Fixtures.tb1] ++
       [RequestShutdown "tb1"])%list /\
    models requested = [Fixtures.tb1].
Proof.
  assert (Hwf : allocated Fixtures.started).
  { apply elem_of_dom. vm_compute. eauto. }
  destruct (shutdownAll_polls_before_requests Fixtures.never
              (Fulfilled [Fixtures.tb1]) [Fulfilled tt] Fixtures.started Hwf)
    as (_ & _ & (requested & He & Hm & _) & _).
  exists requested. split; [exact He|exact Hm].
Defined.

(** C5 as stated fails: with [_models = [tb1]] and a poll that still
    reports [tb1], [shutdownAll] emits a second change event, with [[tb1]],
    between the event of the batch and its shutdown request, and [_models]
    ends up holding [tb1] again. *)
Lemma shutdownAll_second_event_counterexample :
  let m := Fixtures.started in
  let run :=
    shutdownAll_run Fixtures.never (Fulfilled [Fixtures.tb1]) [Fulfilled tt] m in
  models m = [Fixtures.tb1] /\
  effects (fst run) =
    (effects m ++
     [Emit []; RequestListRunning; Emit [Fixtures.tb1];
      RequestShutdown "tb1"; Dispose Fixtures.h1])%list /\
  change_events (drop (length (effects m)) (effects (fst run)))
    = [[]; [Fixtures.tb1]] /\
  change_events (drop (length (effects m)) (effects (fst run))) <> [[]] /\
  models (fst run) = [Fixtures.tb1] /\
  snd run = Fulfilled tt.
Proof.
  vm_compute. repeat split. discriminate.
Qed.

(** *** [startNew] *)

Lemma entries_absent name ms : name ∉ names ms -> entries name ms = [].
Proof.
  intros H. apply elem_of_nil_inv. intros x Hx.
  apply list_elem_of_filter in Hx as [<- Hx]. apply H, name_in_names, Hx.
Qed.

Lemma entries_unique name ms :
  NoDup (names ms) -> name ∈ names ms -> length (entries name ms) = 1%nat.
Proof.
  induction ms as [|x ms IH]; intros Hnd Hin; [inversion Hin|].
  cbn in Hnd. apply NoDup_cons in Hnd as [Hx Hnd].
  unfold entries. destruct (decide (IModel.name x = name)) as [E|E].
  - rewrite filter_cons_True by assumption. cbn [length]. f_equal.
    fold (entries name ms). rewrite entries_absent; [reflexivity|].
    rewrite <- E. exact Hx.
  - rewrite filter_cons_False by assumption. apply IH; [assumption|].
    cbn in Hin. apply elem_of_cons in Hin as [Hin|Hin]; [congruence|assumption].
Qed.

Lemma _onStarted_absent tensorboard m :
  ITensorboard.name tensorboard ∉ names (models m) ->
  models (_onStarted tensorboard m) =
    (models m ++ [ITensorboard.model tensorboard])%list /\
  effects (_onStarted tensorboard m) =
    (effects m ++ [Emit (models m ++ [ITensorboard.model tensorboard])])%list /\
  _tensorboards (_onStarted tensorboard m) =
    set_add tensorboard (_tensorboards m).
Proof.
  intros H. apply named_absent in H. unfold _onStarted. fold (named (ITensorboard.name tensorboard)).
  change (models (set_tensorboards (set_add tensorboard (_tensorboards m)) m))
    with (models m).
  rewrite H. change (-1 =? -1)%Z with true. cbv iota zeta.
  rewrite models_update_models.
  change (models (set_tensorboards (set_add tensorboard (_tensorboards m)) m))
    with (models m).
  repeat split.
  change (models (update_models
                    (fun a => (a ++ [ITensorboard.model tensorboard])%list)
                    (set_tensorboards (set_add tensorboard (_tensorboards m)) m))
          = (models m ++ [ITensorboard.model tensorboard])%list).
  apply models_update_models.
Qed.

Lemma _onStarted_present tensorboard m :
  ITensorboard.name tensorboard ∈ names (models m) ->
  _onStarted tensorboard m =
  set_tensorboards (set_add tensorboard (_tensorboards m)) m.
Proof.
  intros H. unfold _onStarted. fold (named (ITensorboard.name tensorboard)).
  change (models (set_tensorboards (set_add tensorboard (_tensorboards m)) m))
    with (models m).
  destruct (Z.eqb_spec (findFirstIndex (named (ITensorboard.name tensorboard))
                          (models m)) (-1)) as [E|E]; [|reflexivity].
  apply named_absent in E. contradiction.
Qed.

Lemma _onStarted_tensorboards tensorboard m :
  _tensorboards (_onStarted tensorboard m) =
  set_add tensorboard (_tensorboards m).
Proof.
  destruct (decide (ITensorboard.name tensorboard ∈ names (models m))) as [H|H].
  - rewrite _onStarted_present by assumption. reflexivity.
  - apply _onStarted_absent. assumption.
Qed.

(** Names being unique, [_models] holds one entry under the name of a
    handle that has been started. *)
Lemma _onStarted_entries tensorboard m :
  IModel.name (ITensorboard.model tensorboard) = ITensorboard.name tensorboard ->
  NoDup (names (models m)) ->
  length (entries (ITensorboard.name tensorboard)
            (models (_onStarted tensorboard m))) = 1%nat.
Proof.
  intros Hname Hnd.
  destruct (decide (ITensorboard.name tensorboard ∈ names (models m))) as [H|H].
  - rewrite _onStarted_present by assumption.
    change (models (set_tensorboards (set_add tensorboard (_tensorboards m)) m))
      with (models m).
    apply entries_unique; assumption.
  - destruct (_onStarted_absent tensorboard m H) as (-> & _).
    unfold entries. rewrite filter_app.
    fold (entries (ITensorboard.name tensorboard) (models m)).
    rewrite entries_absent by assumption.
    rewrite filter_cons_True by assumption. reflexivity.
Qed.

(** C7. After a successful [startNew] the returned handle is in the handle
    set.  When the name of its model was not in [_models], the model is
    appended and a change event with the new list is emitted; when it was,
    [_models] is unchanged and nothing is emitted.  In both cases, names
    being unique in [_models], it holds exactly one entry for that name. *)
Theorem startNew_adds_once (tensorboard : ITensorboard.t) (m : t) :
  IModel.name (ITensorboard.model tensorboard) = ITensorboard.name tensorboard ->
  NoDup (names (models m)) ->
  let m' := fst (startNew_settle (Fulfilled tensorboard) m) in
  let name := IModel.name (ITensorboard.model tensorboard) in
  snd (startNew_settle (Fulfilled tensorboard) m) = Fulfilled tensorboard /\
  tensorboard ∈ _tensorboards m' /\
  ((name ∉ names (models m)) ->
     models m' = (models m ++ [ITensorboard.model tensorboard])%list /\
     effects m' = (effects m ++ [Emit (models m')])%list) /\
  (name ∈ names (models m) ->
     models m' = models m /\ effects m' = effects m) /\
  length (entries name (models m')) = 1%nat.
Proof.
  intros Hname Hnd m' name. subst m' name. cbn [startNew_settle fst snd].
  rewrite Hname. split; [reflexivity|]. split.
  { rewrite _onStarted_tensorboards. apply set_add_elem. }
  split; [|split; [|apply _onStarted_entries; assumption]].
  - intros H. destruct (_onStarted_absent tensorboard m H) as (Hm & He & _).
    rewrite Hm, He. split; reflexivity.
  - intros H. rewrite _onStarted_present by assumption. split; reflexivity.
Qed.

Lemma startNew_adds_once_witness :
  Fixtures.h1' ∈ _tensorboards (fst (startNew_settle (Fulfilled Fixtures.h1') Fixtures.started)) /\
  models (fst (startNew_settle (Fulfilled Fixtures.h1') Fixtures.started))
    = models Fixtures.started /\
  length (entries "tb1"
            (models (fst (startNew_settle (Fulfilled Fixtures.h1') Fixtures.started))))
    = 1%nat.
Proof.
  assert (Hnd : NoDup (names (models Fixtures.started))).
  { vm_compute. apply NoDup_singleton. }
  destruct (startNew_adds_once Fixtures.h1' Fixtures.started eq_refl Hnd)
    as (_ & Hin & _ & Hsame & Hone).
  split; [exact Hin|]. split; [|exact Hone].
  apply Hsame. vm_compute. apply list_elem_of_here.
Defined.

(** C10. A successful [startNew] adds the returned handle whatever the
    handle set holds.  After two successful [startNew] that return two
    different handles with one name, both are in the handle set (appended
    in that order when they are new), the second call leaves [_models] and
    the effects alone, and [_models], whose names were unique, holds one
    entry under that name. *)
Theorem startNew_twice_two_handles (t1 t2 : ITensorboard.t) (m : t) :
  t1 <> t2 ->
  ITensorboard.name t1 = ITensorboard.name t2 ->
  IModel.name (ITensorboard.model t1) = ITensorboard.name t1 ->
  NoDup (names (models m)) ->
  let m1 := fst (startNew_settle (Fulfilled t1) m) in
  let m2 := fst (startNew_settle (Fulfilled t2) m1) in
  t1 ∈ _tensorboards m2 /\ t2 ∈ _tensorboards m2 /\
  (forall h, h ∈ _tensorboards m -> h ∈ _tensorboards m2) /\
  ((t1 ∉ _tensorboards m) -> (t2 ∉ _tensorboards m) ->
     _tensorboards m2 = (_tensorboards m ++ [t1; t2])%list) /\
  models m2 = models m1 /\ effects m2 = effects m1 /\
  length (entries (ITensorboard.name t1) (models m2)) = 1%nat.
Proof.
  intros Hne Hsame Hname Hnd m1 m2.
  pose proof (_onStarted_entries t1 m Hname Hnd) as Hone.
  change (_onStarted t1 m) with m1 in Hone.
  assert (Hpresent : ITensorboard.name t2 ∈ names (models m1)).
  { rewrite <- Hsame.
    destruct (decide (ITensorboard.name t1 ∈ names (models m1))) as [H|H];
      [assumption|].
    rewrite entries_absent in Hone by assumption. discriminate. }
  assert (Hm2 : m2 = set_tensorboards (set_add t2 (_tensorboards m1)) m1).
  { subst m2. cbn [startNew_settle fst]. apply _onStarted_present. assumption. }
  assert (Ht1 : _tensorboards m1 = set_add t1 (_tensorboards m)).
  { subst m1. cbn [startNew_settle fst]. apply _onStarted_tensorboards. }
  assert (Hin1 : t1 ∈ _tensorboards m1).
  { rewrite Ht1. apply set_add_elem. }
  rewrite Hm2. cbn [_tensorboards set_tensorboards].
  split; [apply set_add_keeps; assumption|].
  split; [apply set_add_elem|].
  split; [intros h Hh; rewrite Ht1; do 2 apply set_add_keeps; assumption|].
  split; [|split; [reflexivity|split; [reflexivity|exact Hone]]].
  intros Hn1 Hn2. rewrite Ht1, (set_add_new t1) by assumption.
  rewrite set_add_new.
  - rewrite <- app_assoc. reflexivity.
  - intros H. apply elem_of_app in H as [H|H]; [contradiction|].
    apply list_elem_of_singleton in H. congruence.
Qed.

Lemma startNew_twice_two_handles_witness :
  let m2 :=
    fst (startNew_settle (Fulfilled Fixtures.h1')
           (fst (startNew_settle (Fulfilled Fixtures.h1) constructor))) in
  Fixtures.h1 <> Fixtures.h1' /\
  ITensorboard.name Fixtures.h1 = ITensorboard.name Fixtures.h1' /\
  _tensorboards m2 = [Fixtures.h1; Fixtures.h1'] /\
  length (entries "tb1" (models m2)) = 1%nat.
Proof.
  assert (Hne : Fixtures.h1 <> Fixtures.h1') by discriminate.
  assert (Hnd : NoDup (names (models constructor))).
  { vm_compute. apply NoDup_nil_2. }
  destruct (startNew_twice_two_handles Fixtures.h1 Fixtures.h1' constructor
              Hne eq_refl eq_refl Hnd)
    as (_ & _ & _ & Hset & _ & _ & Hone).
  split; [exact Hne|]. split; [reflexivity|]. split; [|exact Hone].
  apply Hset; vm_compute; apply not_elem_of_nil.
Defined.

(** *** The handle set against [_models] *)

(** A poll that finds a change leaves only handles whose name it reports. *)
Lemma refresh_establishes_covered
    (dispose_emits_terminated : ITensorboard.t -> bool)
    (fetched : list IModel.t) (m : t) :
  deepEqual fetched (models m) = false ->
  covered (_refreshRunning_then dispose_emits_terminated fetched m).
Proof.
  intros Hneq h. unfold _refreshRunning_then.
  change (models (set_isReady true m)) with (models m). rewrite Hneq.
  cbn [negb]. cbv zeta.
  set (doomed := fun h : ITensorboard.t =>
         (indexOf (names fetched) (ITensorboard.name h) =? -1)%Z).
  change (h ∈ _tensorboards (dispose_and_delete dispose_emits_terminated doomed
                               (set_isReady true m)) ->
          ITensorboard.name h ∈
            names (models (assign_models fetched
                     (dispose_and_delete dispose_emits_terminated doomed
                        (set_isReady true m))))).
  rewrite models_assign_models, dispose_and_delete_tensorboards.
  intros Hh. apply list_elem_of_filter in Hh as [Hd _]. unfold doomed in Hd.
  destruct (decide (ITensorboard.name h ∈ names fetched)) as [H|H]; [assumption|].
  apply indexOf_none in H. rewrite H in Hd. discriminate.
Qed.

Lemma shutdown_preserves_covered
    (dispose_emits_terminated : ITensorboard.t -> bool)
    (name : string) (m : t) :
  covered m ->
  covered (fst (shutdown_run dispose_emits_terminated name (Fulfilled tt) m)).
Proof.
  intros Hcov.
  destruct (decide (name ∈ names (models m))) as [Hin|Hout].
  - rewrite shutdown_run_present by assumption.
    destruct (named_present _ _ Hin) as (before & x & after & E & Hx & Hb & _).
    rewrite (shutdown_call_present name m before x after E Hx Hb).
    cbn [shutdown_settle fst]. intros h Hh.
    rewrite shutdown_then_tensorboards in Hh.
    apply list_elem_of_filter in Hh as [Hne Hh].
    apply String.eqb_neq in Hne.
    change (h ∈ _tensorboards m) in Hh.
    unfold shutdown_then.
    apply (dispose_and_delete_keeps dispose_emits_terminated _ name).
    + intros h' Hd. apply String.eqb_eq. exact Hd.
    + assumption.
    + change (ITensorboard.name h ∈
                names (models (update_models (splice1 (Z.of_nat (length before))) m))).
      rewrite models_update_models, E, splice1_first.
      specialize (Hcov h Hh). rewrite E, names_app in Hcov.
      rewrite names_app. apply elem_of_app in Hcov as [H|H];
        apply elem_of_app; [left; assumption|].
      cbn in H. apply elem_of_cons in H as [H|H]; [congruence|right; assumption].
  - unfold shutdown_run. rewrite shutdown_call_absent by assumption. exact Hcov.
Qed.

Lemma startNew_preserves_covered (tensorboard : ITensorboard.t) (m : t) :
  IModel.name (ITensorboard.model tensorboard) = ITensorboard.name tensorboard ->
  covered m -> covered (_onStarted tensorboard m).
Proof.
  intros Hname Hcov h Hh. rewrite _onStarted_tensorboards in Hh.
  destruct (decide (ITensorboard.name tensorboard ∈ names (models m))) as [H|H].
  - rewrite _onStarted_present by assumption.
    change (ITensorboard.name h ∈ names (models m)).
    apply set_add_inv in Hh as [->|Hh]; [assumption|apply Hcov, Hh].
  - destruct (_onStarted_absent tensorboard m H) as (-> & _).
    rewrite names_app. apply elem_of_app.
    apply set_add_inv in Hh as [->|Hh].
    + right. cbn. rewrite Hname. apply list_elem_of_here.
    + left. apply Hcov, Hh.
Qed.

Lemma refresh_preserves_covered
    (dispose_emits_terminated : ITensorboard.t -> bool)
    (answer : Settled (list IModel.t)) (m : t) :
  covered m ->
  covered (fst (_refreshRunning_settle dispose_emits_terminated answer m)).
Proof.
  intros Hcov. destruct answer as [fetched|reason]; [|exact Hcov].
  cbn [_refreshRunning_settle fst].
  destruct (deepEqual fetched (models m)) eqn:Heq.
  - unfold _refreshRunning_then.
    change (models (set_isReady true m)) with (models m). rewrite Heq.
    exact Hcov.
  - apply refresh_establishes_covered. assumption.
Qed.

Lemma _onTerminated_removes name m :
  name ∈ names (models m) -> NoDup (names (models m)) ->
  name ∉ names (models (_onTerminated name m)).
Proof.
  intros Hin Hnd.
  destruct (named_present _ _ Hin) as (before & x & after & E & Hx & Hb & _).
  rewrite (_onTerminated_present name m before x after E Hx Hb).
  change (name ∉ names (models (update_models (splice1 (Z.of_nat (length before))) m))).
  rewrite models_update_models, E, splice1_first.
  rewrite E, names_app in Hnd. cbn in Hnd.
  apply NoDup_app in Hnd as (_ & _ & Hnd').
  apply NoDup_cons in Hnd' as [Hx' _]. rewrite Hx in Hx'.
  rewrite names_app. intros H. apply elem_of_app in H as [H|H]; contradiction.
Qed.

(** A poll whose list is deep-equal to [_models] only marks the manager
    ready. *)
Lemma refresh_deep_equal_unchanged
    (dispose_emits_terminated : ITensorboard.t -> bool)
    (fetched : list IModel.t) (m : t) :
  deepEqual fetched (models m) = true ->
  _refreshRunning_then dispose_emits_terminated fetched m = set_isReady true m.
Proof.
  intros Heq. unfold _refreshRunning_then.
  change (models (set_isReady true m)) with (models m). rewrite Heq. reflexivity.
Qed.

(** A poll that finds a change disposes of, and removes, every handle held
    whose name it does not report. *)
Lemma refresh_removes_unreported
    (dispose_emits_terminated : ITensorboard.t -> bool)
    (fetched : list IModel.t) (m : t) (h : ITensorboard.t) :
  deepEqual fetched (models m) = false ->
  h ∈ _tensorboards m -> (ITensorboard.name h ∉ names fetched) ->
  (h ∉ _tensorboards (_refreshRunning_then dispose_emits_terminated fetched m)) /\
  Dispose h ∈ effects (_refreshRunning_then dispose_emits_terminated fetched m).
Proof.
  intros Hneq Hh Hout. unfold _refreshRunning_then.
  change (models (set_isReady true m)) with (models m). rewrite Hneq.
  cbn [negb]. cbv zeta.
  set (doomed := fun h : ITensorboard.t =>
         (indexOf (names fetched) (ITensorboard.name h) =? -1)%Z).
  assert (Hd : doomed h = true).
  { unfold doomed. apply Z.eqb_eq. apply indexOf_none. exact Hout. }
  split.
  - change (h ∉ _tensorboards (dispose_and_delete dispose_emits_terminated doomed
                                 (set_isReady true m))).
    rewrite dispose_and_delete_tensorboards, list_elem_of_filter.
    intros [Hf _]. congruence.
  - cbn [effects emit log assign_models]. apply elem_of_app. left.
    apply dispose_and_delete_disposed; [exact Hh|exact Hd].
Qed.

(** C2, as the code has it.  That every handle held has a name in
    [_models] is kept by a successful [startNew], by [refreshRunning]
    (which establishes it whenever it finds a change) and by a
    [shutdown(name)] whose remote call is fulfilled.  A termination notice
    does not keep it: [_onTerminated(name)] takes the name out of [_models]
    and leaves the handle set as it is.  After the notice [shutdown(name)]
    does nothing, whatever the backend would answer, and a poll whose list
    is deep-equal to [_models] changes neither the handle set nor the
    effects: the handle stays held.  It is disposed of and removed by a poll
    that finds a change and does not report its name. *)
Theorem handles_covered_until_terminated
    (dispose_emits_terminated : ITensorboard.t -> bool) (m : t) :
  covered m ->
  (forall tensorboard,
     IModel.name (ITensorboard.model tensorboard) = ITensorboard.name tensorboard ->
     covered (fst (startNew_settle (Fulfilled tensorboard) m))) /\
  (forall answer,
     covered (fst (_refreshRunning_settle dispose_emits_terminated answer m))) /\
  (forall m0 fetched,
     deepEqual fetched (models m0) = false ->
     covered (_refreshRunning_then dispose_emits_terminated fetched m0)) /\
  (forall name,
     covered (fst (shutdown_run dispose_emits_terminated name (Fulfilled tt) m))) /\
  (forall name,
     let m' := _onTerminated name m in
     _tensorboards m' = _tensorboards m /\
     (name ∈ names (models m) -> NoDup (names (models m)) ->
      (name ∉ names (models m')) /\
      (forall answer,
         shutdown_run dispose_emits_terminated name answer m' = (m', Fulfilled tt)) /\
      (forall fetched,
         deepEqual fetched (models m') = true ->
         let polled :=
           fst (_refreshRunning_settle dispose_emits_terminated
                  (Fulfilled fetched) m') in
         _tensorboards polled = _tensorboards m /\
         models polled = models m' /\
         effects polled = effects m'))) /\
  (forall m0 fetched h,
     deepEqual fetched (models m0) = false ->
     h ∈ _tensorboards m0 -> (ITensorboard.name h ∉ names fetched) ->
     (h ∉ _tensorboards (_refreshRunning_then dispose_emits_terminated fetched m0)) /\
     Dispose h ∈ effects (_refreshRunning_then dispose_emits_terminated fetched m0)).
Proof.
  intros Hcov. split; [|split; [|split; [|split; [|split]]]].
  - intros tensorboard Hname. apply startNew_preserves_covered; assumption.
  - intros answer. apply refresh_preserves_covered. assumption.
  - intros m0 fetched. apply refresh_establishes_covered.
  - intros name. apply shutdown_preserves_covered. assumption.
  - intros name m'.
    assert (Ht : _tensorboards m' = _tensorboards m)
      by (subst m'; apply _onTerminated_frame).
    split; [exact Ht|].
    intros Hin Hnd.
    assert (Hgone : name ∉ names (models m'))
      by (subst m'; apply _onTerminated_removes; assumption).
    split; [exact Hgone|]. split.
    + intros answer. unfold shutdown_run.
      rewrite shutdown_call_absent by exact Hgone. reflexivity.
    + intros fetched Heq polled. subst polled.
      cbn [_refreshRunning_settle fst].
      rewrite refresh_deep_equal_unchanged by exact Heq.
      split; [exact Ht|]. split; reflexivity.
  - intros m0 fetched h. apply refresh_removes_unreported.
Qed.

Lemma covered_started : covered Fixtures.started.
Proof.
  intros h Hh. vm_compute in Hh. apply list_elem_of_singleton in Hh. subst h.
  vm_compute. apply list_elem_of_here.
Defined.

Lemma handles_covered_until_terminated_witness :
  let noticed := _onTerminated "tb1" Fixtures.started in
  let polled :=
    fst (_refreshRunning_settle Fixtures.always (Fulfilled [])
           (fst (shutdown_run Fixtures.always "tb1" (Fulfilled tt) noticed))) in
  covered (fst (startNew_settle (Fulfilled Fixtures.h2) Fixtures.started)) /\
  covered (fst (_refreshRunning_settle Fixtures.always (Fulfilled []) Fixtures.started)) /\
  covered (fst (shutdown_run Fixtures.always "tb1" (Fulfilled tt) Fixtures.started)) /\
  _tensorboards noticed = _tensorboards Fixtures.started /\
  shutdown_run Fixtures.always "tb1" (Fulfilled tt) noticed = (noticed, Fulfilled tt) /\
  _tensorboards polled = [Fixtures.h1] /\
  models polled = [] /\
  (Fixtures.h1 ∉ _tensorboards
     (_refreshRunning_then Fixtures.always [Fixtures.tb2] noticed)).
Proof.
  cbv zeta.
  destruct (handles_covered_until_terminated Fixtures.always Fixtures.started
              covered_started)
    as (Hstart & Hrefresh & _ & Hshutdown & Hterm & Hremoved).
  assert (Hin : "tb1" ∈ names (models Fixtures.started)).
  { vm_compute. apply list_elem_of_here. }
  assert (Hnd : NoDup (names (models Fixtures.started))).
  { vm_compute. apply NoDup_singleton. }
  destruct (Hterm "tb1") as (Hkept & Hafter).
  destruct (Hafter Hin Hnd) as (_ & Hnoop & Hpoll).
  assert (Heq : deepEqual [] (models (_onTerminated "tb1" Fixtures.started)) = true)
    by reflexivity.
  destruct (Hpoll [] Heq) as (Hp1 & Hp2 & _).
  split; [apply Hstart; reflexivity|].
  split; [apply Hrefresh|].
  split; [apply Hshutdown|].
  split; [exact Hkept|].
  split; [apply Hnoop|].
  rewrite (Hnoop (Fulfilled tt)). cbn [fst].
  split; [rewrite Hp1; reflexivity|].
  split; [rewrite Hp2; reflexivity|].
  apply (Hremoved (_onTerminated "tb1" Fixtures.started) [Fixtures.tb2] Fixtures.h1).
  - reflexivity.
  - rewrite Hkept. vm_compute. apply list_elem_of_here.
  - vm_compute. intros H. apply list_elem_of_singleton in H. discriminate.
Defined.

(** C2 as stated fails: after [startNew] has returned the handle [h1] of
    [tb1], every handle has its name in [_models]; once the termination
    notice of [tb1] is processed, [h1] is still in the handle set and its
    name is no longer in [_models]. *)
Lemma terminated_handle_stays_counterexample :
  let m := Fixtures.started in
  let m' := _onTerminated "tb1" m in
  covered m /\
  Fixtures.h1 ∈ _tensorboards m' /\
  (ITensorboard.name Fixtures.h1 ∉ names (models m')) /\
  ~ covered m'.
Proof.
  cbv zeta. split; [exact covered_started|].
  assert (Hin : Fixtures.h1 ∈ _tensorboards (_onTerminated "tb1" Fixtures.started)).
  { vm_compute. apply list_elem_of_here. }
  assert (Hout : ITensorboard.name Fixtures.h1 ∉
                 names (models (_onTerminated "tb1" Fixtures.started))).
  { vm_compute. apply not_elem_of_nil. }
  split; [exact Hin|]. split; [exact Hout|].
  intros Hcov. apply Hout. apply Hcov. exact Hin.
Qed.

(** *** The array behind [_models] *)

Lemma allocated_constructor : allocated constructor.
Proof. apply elem_of_dom. vm_compute. eauto. Qed.

Lemma allocated_update_models f m : allocated m -> allocated (update_models f m).
Proof. apply dom_update_models. Qed.

Lemma allocated_assign_models a m : allocated (assign_models a m).
Proof. apply dom_assign_models_ref. Qed.

Lemma allocated__onTerminated name m :
  allocated m -> allocated (_onTerminated name m).
Proof.
  unfold allocated. intros H.
  destruct (_onTerminated_frame name m) as (_ & -> & _ & Hd & _). apply Hd, H.
Qed.

Lemma allocated__onStarted tensorboard m :
  allocated m -> allocated (_onStarted tensorboard m).
Proof.
  intros H. destruct (decide (ITensorboard.name tensorboard ∈ names (models m))) as [Hin|Hout].
  - rewrite _onStarted_present by assumption. exact H.
  - unfold _onStarted. fold (named (ITensorboard.name tensorboard)).
    change (models (set_tensorboards (set_add tensorboard (_tensorboards m)) m))
      with (models m).
    apply named_absent in Hout. rewrite Hout.
    change (-1 =? -1)%Z with true. cbv iota zeta.
    apply (allocated_update_models _ (set_tensorboards _ m)). exact H.
Qed.

Lemma allocated_dispose_and_delete
    (dispose_emits_terminated doomed : ITensorboard.t -> bool) (m : t) :
  allocated m -> allocated (dispose_and_delete dispose_emits_terminated doomed m).
Proof.
  unfold allocated. intros H.
  destruct (dispose_and_delete_frame dispose_emits_terminated doomed m)
    as (-> & _ & Hd & _).
  apply Hd, H.
Qed.

Lemma allocated__refreshRunning_then
    (dispose_emits_terminated : ITensorboard.t -> bool) fetched m :
  allocated m -> allocated (_refreshRunning_then dispose_emits_terminated fetched m).
Proof.
  intros H. unfold _refreshRunning_then.
  destruct (negb (deepEqual fetched (models (set_isReady true m)))); [|exact H].
  apply (allocated_assign_models fetched).
Qed.

Lemma allocated_shutdown_call name m :
  allocated m -> allocated (fst (shutdown_call name m)).
Proof.
  intros H. destruct (decide (name ∈ names (models m))) as [Hin|Hout].
  - destruct (named_present _ _ Hin) as (before & x & after & E & Hx & Hb & _).
    rewrite (shutdown_call_present name m before x after E Hx Hb).
    apply (allocated_update_models _ m H).
  - rewrite shutdown_call_absent by assumption. exact H.
Qed.

Lemma allocated_shutdownAll_call m :
  allocated m -> allocated (fst (shutdownAll_call m)).
Proof.
  intros H. unfold shutdownAll_call. cbn [fst].
  destruct (0 <? Z.of_nat (length (read (_models m) m)))%Z; [|exact H].
  apply (allocated_assign_models [] m).
Qed.

(** [shutdownAll] keeps the array, not a copy of it.  Called on a new
    manager it keeps the empty array [_models] refers to; a [startNew] that
    is fulfilled before the poll answers pushes [tb1] to that very array;
    the poll, which reports [tb1], finds no change; and the shutdown of
    [tb1] is requested although [_models] was empty when [shutdownAll] was
    called, and [_models] still lists [tb1] afterwards. *)
Example shutdownAll_keeps_the_array :
  let '(m1, kept) := shutdownAll_call constructor in
  let m2 := fst (startNew_settle (Fulfilled Fixtures.h1) m1) in
  let m3 := fst (_refreshRunning_settle Fixtures.never (Fulfilled [Fixtures.tb1]) m2) in
  let m4 := shutdownAll_requests kept m3 in
  models constructor = [] /\
  effects m4 =
    (effects constructor ++
     [RequestListRunning; Emit [Fixtures.tb1]; RequestShutdown "tb1"])%list /\
  models m4 = [Fixtures.tb1].
Proof. vm_compute. auto. Qed.

End ManagerClaims.

(** ** Further properties of the registry *)

Module ManagerExtras.
Import JsArray JsArrayFacts TensorboardManager ManagerSpec ManagerFacts ManagerClaims.

(** *** Helper facts *)

Lemma NoDup_names_remove (before after : list IModel.t) x :
  NoDup (names (before ++ x :: after)) -> NoDup (names (before ++ after)).
Proof.
  rewrite !names_app. cbn. intros H.
  apply NoDup_app in H as (Hb & Hdisj & Ha).
  apply NoDup_cons in Ha as [_ Ha].
  apply NoDup_app. split; [assumption|]. split; [|assumption].
  intros n Hn Hn'. apply (Hdisj n Hn). apply list_elem_of_further. assumption.
Qed.

Lemma _onTerminated_unique name m :
  NoDup (names (models m)) -> NoDup (names (models (_onTerminated name m))).
Proof.
  intros Hnd.
  destruct (_onTerminated_cases name m) as [[_ ->]|(b & x & a & E & _ & _ & ->)];
    [assumption|].
  change (NoDup (names (models (update_models (splice1 (Z.of_nat (length b))) m)))).
  rewrite models_update_models, E, splice1_first.
  rewrite E in Hnd. eapply NoDup_names_remove. eassumption.
Qed.

(** What the flags and the configuration are is no business of the loops. *)
Definition same_flags (m m' : t) : Prop :=
  _isReady m' = _isReady m /\ _isDisposed m' = _isDisposed m /\
  _statusConfig m' = _statusConfig m.

Lemma _onTerminated_flags name m : same_flags m (_onTerminated name m).
Proof.
  destruct (_onTerminated_cases name m) as [[_ ->]|(b & x & a & _ & _ & _ & ->)];
    repeat split.
Qed.

Lemma dispose_and_delete_flags
    (dispose_emits_terminated doomed : ITensorboard.t -> bool) (m : t) :
  same_flags m (dispose_and_delete dispose_emits_terminated doomed m).
Proof.
  rewrite dispose_and_delete_unfold.
  assert (Hd : forall r m0, same_flags m0 (delete_each r m0)).
  { intros r. induction r as [|h r IH]; intros m0; [repeat split|].
    exact (IH (set_tensorboards (set_delete h (_tensorboards m0)) m0)). }
  destruct (Hd (filter (fun h => doomed h = true) (_tensorboards m))
               (fst (dispose_each dispose_emits_terminated doomed m)))
    as (H1 & H2 & H3).
  unfold same_flags. rewrite H1, H2, H3.
  unfold dispose_each.
  apply (dispose_loop_ind dispose_emits_terminated doomed (same_flags m));
    [|repeat split].
  intros h m' _ (H1' & H2' & H3'). unfold dispose_handle.
  destruct (dispose_emits_terminated h).
  - destruct (_onTerminated_flags (ITensorboard.name h) (log (Dispose h) m'))
      as (G1 & G2 & G3).
    unfold same_flags. rewrite G1, G2, G3. repeat split; assumption.
  - repeat split; assumption.
Qed.

Lemma dispose_and_delete_unique
    (dispose_emits_terminated doomed : ITensorboard.t -> bool) (m : t) :
  NoDup (names (models m)) ->
  NoDup (names (models (dispose_and_delete dispose_emits_terminated doomed m))).
Proof.
  intros Hnd. rewrite dispose_and_delete_unfold, models_delete_each.
  unfold dispose_each.
  apply (dispose_loop_ind dispose_emits_terminated doomed
           (fun m' => NoDup (names (models m')))); [|assumption].
  intros h m' _ Hm'. unfold dispose_handle.
  destruct (dispose_emits_terminated h); [|exact Hm'].
  apply _onTerminated_unique. exact Hm'.
Qed.

(** One [dispose()] adds its own entry, and change events if the handle
    notifies. *)
Lemma dispose_handle_effects
    (dispose_emits_terminated : ITensorboard.t -> bool) h m :
  exists d,
    effects (dispose_handle dispose_emits_terminated h m)
      = (effects m ++ Dispose h :: d)%list /\
    forall e, e ∈ d -> exists snapshot, e = Emit snapshot.
Proof.
  unfold dispose_handle. destruct (dispose_emits_terminated h).
  - destruct (_onTerminated_frame (ITensorboard.name h) (log (Dispose h) m))
      as (_ & _ & (d & He & Hd) & _).
    exists d. split; [|exact Hd].
    rewrite He. cbn [effects log]. rewrite <- app_assoc. reflexivity.
  - exists []. split; [reflexivity|]. intros e He. inversion He.
Qed.

(** The loop adds nothing but the disposal of doomed handles of the set and
    change events. *)
Lemma dispose_loop_effects
    (dispose_emits_terminated doomed : ITensorboard.t -> bool) l :
  forall m acc,
  exists d,
    effects (fst (foldl (dispose_step dispose_emits_terminated doomed) (m, acc) l))
      = (effects m ++ d)%list /\
    forall e, e ∈ d ->
      (exists h, e = Dispose h /\ doomed h = true /\ h ∈ l) \/
      (exists snapshot, e = Emit snapshot).
Proof.
  induction l as [|h l IH]; intros m acc; cbn [foldl].
  - exists []. split; [symmetry; apply app_nil_r|]. intros e He. inversion He.
  - unfold dispose_step at 2. destruct (doomed h) eqn:Hd.
    + destruct (IH (dispose_handle dispose_emits_terminated h m) (acc ++ [h])%list)
        as (d & He & Hall).
      destruct (dispose_handle_effects dispose_emits_terminated h m)
        as (d' & He' & Hall').
      exists (Dispose h :: d' ++ d)%list. split.
      * rewrite He, He'. rewrite <- app_assoc. reflexivity.
      * intros e Hin. apply elem_of_cons in Hin as [->|Hin].
        -- left. exists h. repeat split; [assumption|apply list_elem_of_here].
        -- apply elem_of_app in Hin as [Hin|Hin].
           ++ right. apply Hall', Hin.
           ++ destruct (Hall e Hin) as [(h' & -> & Hd' & Hh')|Hs]; [|right; exact Hs].
              left. exists h'. repeat split; [assumption|].
              apply list_elem_of_further. assumption.
    + destruct (IH m acc) as (d & He & Hall). exists d. split; [exact He|].
      intros e Hin. destruct (Hall e Hin) as [(h' & -> & Hd' & Hh')|Hs];
        [|right; exact Hs].
      left. exists h'. repeat split; [assumption|].
      apply list_elem_of_further. assumption.
Qed.

Lemma dispose_and_delete_effects
    (dispose_emits_terminated doomed : ITensorboard.t -> bool) (m : t) :
  exists d,
    effects (dispose_and_delete dispose_emits_terminated doomed m)
      = (effects m ++ d)%list /\
    forall e, e ∈ d ->
      (exists h, e = Dispose h /\ doomed h = true /\ h ∈ _tensorboards m) \/
      (exists snapshot, e = Emit snapshot).
Proof.
  rewrite dispose_and_delete_unfold.
  destruct (delete_each_frame
              (filter (fun h => doomed h = true) (_tensorboards m))
              (fst (dispose_each dispose_emits_terminated doomed m)))
    as (_ & _ & -> & _).
  apply dispose_loop_effects.
Qed.

(** With no handle held the loops do nothing at all. *)
Lemma dispose_and_delete_no_handles
    (dispose_emits_terminated doomed : ITensorboard.t -> bool) (m : t) :
  _tensorboards m = [] ->
  dispose_and_delete dispose_emits_terminated doomed m = m.
Proof.
  intros H. unfold dispose_and_delete, dispose_each. rewrite H. reflexivity.
Qed.

(** Setting a flag to the value it has changes nothing. *)
Lemma set_isReady_same m : _isReady m = true -> set_isReady true m = m.
Proof. destruct m. cbn. intros ->. reflexivity. Qed.

(** The list cached by the callback of a fulfilled poll is the fetched one. *)
Lemma _refreshRunning_then_models
    (dispose_emits_terminated : ITensorboard.t -> bool) fetched m :
  models (_refreshRunning_then dispose_emits_terminated fetched m) = fetched.
Proof.
  unfold _refreshRunning_then.
  change (models (set_isReady true m)) with (models m).
  destruct (deepEqual fetched (models m)) eqn:E; cbn [negb].
  - apply deepEqual_spec in E. symmetry. exact E.
  - apply (models_assign_models fetched).
Qed.

Lemma _refreshRunning_then_ready
    (dispose_emits_terminated : ITensorboard.t -> bool) fetched m :
  _isReady (_refreshRunning_then dispose_emits_terminated fetched m) = true.
Proof.
  unfold _refreshRunning_then.
  destruct (negb (deepEqual fetched (models (set_isReady true m)))); [|reflexivity].
  cbn [_isReady emit log assign_models].
  apply (dispose_and_delete_flags dispose_emits_terminated _ (set_isReady true m)).
Qed.

Lemma _refreshRunning_then_disposed
    (dispose_emits_terminated : ITensorboard.t -> bool) fetched m :
  _isDisposed (_refreshRunning_then dispose_emits_terminated fetched m)
  = _isDisposed m.
Proof.
  unfold _refreshRunning_then.
  destruct (negb (deepEqual fetched (models (set_isReady true m)))); [|reflexivity].
  cbn [_isDisposed emit log assign_models].
  apply (dispose_and_delete_flags dispose_emits_terminated _ (set_isReady true m)).
Qed.

Lemma shutdown_call_gone name m :
  NoDup (names (models m)) -> name ∉ names (models (fst (shutdown_call name m))).
Proof.
  intros Hnd. destruct (decide (name ∈ names (models m))) as [Hin|Hout].
  - destruct (named_present _ _ Hin) as (before & x & after & E & Hx & Hb & _).
    rewrite (shutdown_call_present name m before x after E Hx Hb). cbn [fst].
    change (name ∉ names (models (update_models (splice1 (Z.of_nat (length before))) m))).
    rewrite models_update_models, E, splice1_first.
    rewrite E, names_app in Hnd. cbn in Hnd.
    apply NoDup_app in Hnd as (_ & _ & Hnd').
    apply NoDup_cons in Hnd' as [Hx' _]. rewrite Hx in Hx'.
    rewrite names_app. intros H. apply elem_of_app in H as [H|H]; contradiction.
  - rewrite shutdown_call_absent by assumption. exact Hout.
Qed.

(** *** [shutdown] and [_onTerminated] at their edges *)

(** X1. [shutdown(name)] for a name that is not in [_models] does nothing: the
    manager is unchanged (no event, no request to the backend) and the
    promise is fulfilled, whatever the backend would have answered. *)
Theorem shutdown_absent_noop
    (dispose_emits_terminated : ITensorboard.t -> bool)
    (name : string) (answer : Settled unit) (m : t) :
  (name ∉ names (models m)) ->
  shutdown_run dispose_emits_terminated name answer m = (m, Fulfilled tt).
Proof.
  intros H. unfold shutdown_run. rewrite shutdown_call_absent by assumption.
  reflexivity.
Qed.

Lemma shutdown_absent_noop_witness :
  shutdown_run Fixtures.always "tb2" (Rejected "boom") Fixtures.started
  = (Fixtures.started, Fulfilled tt).
Proof.
  apply shutdown_absent_noop. vm_compute.
  intros H. apply list_elem_of_singleton in H. discriminate.
Defined.

(** X2. Names being unique in [_models], a second [shutdown(name)] made while
    the first one is still waiting for the backend does nothing: no second
    event and no second request. *)
Theorem shutdown_twice_one_request (name : string) (m : t) :
  NoDup (names (models m)) ->
  let m1 := fst (shutdown_call name m) in
  shutdown_call name m1 = (m1, Done (Fulfilled tt)).
Proof.
  intros Hnd m1. apply shutdown_call_absent. apply shutdown_call_gone. exact Hnd.
Qed.

Lemma shutdown_twice_one_request_witness :
  shutdown_call "tb1" (fst (shutdown_call "tb1" Fixtures.started))
  = (fst (shutdown_call "tb1" Fixtures.started), Done (Fulfilled tt)).
Proof.
  apply (shutdown_twice_one_request "tb1" Fixtures.started).
  vm_compute. apply NoDup_singleton.
Defined.

(** X3. Names being unique in [_models], a second termination notice for the
    same name changes nothing: one change event per terminated instance. *)
Theorem _onTerminated_twice (name : string) (m : t) :
  NoDup (names (models m)) ->
  _onTerminated name (_onTerminated name m) = _onTerminated name m.
Proof.
  intros Hnd. apply _onTerminated_absent.
  destruct (decide (name ∈ names (models m))) as [Hin|Hout].
  - apply _onTerminated_removes; assumption.
  - rewrite _onTerminated_absent by assumption. exact Hout.
Qed.

Lemma _onTerminated_twice_witness :
  _onTerminated "tb1" (_onTerminated "tb1" Fixtures.started)
  = _onTerminated "tb1" Fixtures.started.
Proof.
  apply _onTerminated_twice. vm_compute. apply NoDup_singleton.
Defined.

(** *** [dispose] *)

(** X4. [dispose()] is idempotent. *)
Theorem dispose_idempotent (m : t) : dispose (dispose m) = dispose m.
Proof.
  unfold dispose at 1. destruct (_isDisposed (dispose m)) eqn:E; [reflexivity|].
  unfold dispose in E. destruct (_isDisposed m) eqn:E'; [congruence|].
  discriminate.
Qed.

(** X5. On a manager that is not disposed, [dispose()] marks it disposed, stops
    the timer, drops the signal connections and empties [_models]; it asks
    the backend for nothing, emits no change event, and leaves the handles
    held, undisposed. *)
Theorem dispose_clears_list_only (m : t) :
  _isDisposed m = false ->
  _isDisposed (dispose m) = true /\
  models (dispose m) = [] /\
  _tensorboards (dispose m) = _tensorboards m /\
  effects (dispose m) = (effects m ++ [ClearInterval; ClearSignalData])%list.
Proof.
  intros H. unfold dispose. rewrite H.
  split; [reflexivity|]. split; [apply models_assign_models|].
  split; [reflexivity|].
  cbn [effects assign_models log set_isDisposed]. rewrite <- app_assoc. reflexivity.
Qed.

Lemma dispose_clears_list_only_witness :
  models (dispose Fixtures.started) = [] /\
  _tensorboards (dispose Fixtures.started) = [Fixtures.h1].
Proof.
  destruct (dispose_clears_list_only Fixtures.started eq_refl)
    as (_ & Hm & Ht & _).
  split; [exact Hm|exact Ht].
Defined.

(** X6. The callback of a poll does not look at [_isDisposed]: an answer that
    arrives after [dispose()] and reports running instances fills [_models]
    again, disposes of the handles it does not report and emits the change
    event. *)
Theorem poll_answer_after_dispose
    (dispose_emits_terminated : ITensorboard.t -> bool)
    (fetched : list IModel.t) (m : t) :
  _isDisposed m = false -> fetched <> [] ->
  let m' := _refreshRunning_then dispose_emits_terminated fetched (dispose m) in
  _isDisposed m' = true /\
  models m' = fetched /\
  effects m' =
    (effects (dispose m) ++
     (Dispose <$> filter (fun h => ITensorboard.name h ∉ names fetched)
                         (_tensorboards m)) ++
     [Emit fetched])%list.
Proof.
  intros Hd Hne m'.
  assert (Hdis : dispose m =
                 assign_models []
                   (log ClearSignalData (log ClearInterval (set_isDisposed true m)))).
  { unfold dispose. rewrite Hd. reflexivity. }
  assert (Hdisp : _isDisposed (dispose m) = true) by (rewrite Hdis; reflexivity).
  assert (Hm : models (dispose m) = []).
  { rewrite Hdis. apply models_assign_models. }
  assert (Ht : _tensorboards (dispose m) = _tensorboards m)
    by (rewrite Hdis; reflexivity).
  assert (Ha : _models (dispose m) ∈ dom (arrays (dispose m))).
  { rewrite Hdis. apply dom_assign_models_ref. }
  destruct (refresh_on_empty dispose_emits_terminated fetched _ (dispose m) Hm Ha)
    as (Hm' & _ & He).
  subst m'. split; [|split; [exact Hm'|]].
  - rewrite _refreshRunning_then_disposed. exact Hdisp.
  - rewrite He, Ht. destruct fetched; [congruence|reflexivity].
Qed.

Lemma poll_answer_after_dispose_witness :
  models (_refreshRunning_then Fixtures.never [Fixtures.tb2]
            (dispose Fixtures.started)) = [Fixtures.tb2] /\
  effects (_refreshRunning_then Fixtures.never [Fixtures.tb2]
             (dispose Fixtures.started)) =
    (effects (dispose Fixtures.started) ++
     [Dispose Fixtures.h1; Emit [Fixtures.tb2]])%list.
Proof.
  assert (Hne : [Fixtures.tb2] <> []) by discriminate.
  destruct (poll_answer_after_dispose Fixtures.never [Fixtures.tb2]
              Fixtures.started eq_refl Hne) as (_ & Hm & He).
  split; [exact Hm|]. rewrite He. reflexivity.
Defined.

(** *** [refreshRunning] *)

(** X7. Whatever the manager held, after the callback of a fulfilled poll
    [_models] is the fetched list, the manager is ready, and the handle set
    is what it was when the list is deep-equal to the cached one, and
    otherwise exactly the handles whose name the poll reports, in their
    order. *)
Theorem refresh_caches_fetched
    (dispose_emits_terminated : ITensorboard.t -> bool)
    (fetched : list IModel.t) (m : t) :
  let m' := _refreshRunning_then dispose_emits_terminated fetched m in
  models m' = fetched /\
  _isReady m' = true /\
  _tensorboards m' =
    (if deepEqual fetched (models m) then _tensorboards m
     else filter (fun h => ITensorboard.name h ∈ names fetched) (_tensorboards m)).
Proof.
  cbv zeta. split; [apply _refreshRunning_then_models|].
  split; [apply _refreshRunning_then_ready|].
  unfold _refreshRunning_then.
  change (models (set_isReady true m)) with (models m).
  destruct (deepEqual fetched (models m)); cbn [negb]; [reflexivity|].
  cbn [_tensorboards emit log assign_models].
  rewrite dispose_and_delete_tensorboards. cbn [_tensorboards set_isReady].
  apply list_filter_iff. intros h.
  destruct (Z.eqb_spec (indexOf (names fetched) (ITensorboard.name h)) (-1)) as [E|E].
  - apply indexOf_none in E. split; [discriminate|contradiction].
  - split; [intros _|reflexivity].
    destruct (decide (ITensorboard.name h ∈ names fetched)) as [H|H]; [assumption|].
    apply indexOf_none in H. contradiction.
Qed.

(** X8. The callback of a fulfilled poll asks the backend for nothing, and it
    disposes only of handles that are held and whose name the poll does not
    report: everything it adds to the effects is such a disposal or a change
    event. *)
Theorem refresh_disposes_unreported_only
    (dispose_emits_terminated : ITensorboard.t -> bool)
    (fetched : list IModel.t) (m : t) :
  exists d,
    effects (_refreshRunning_then dispose_emits_terminated fetched m)
      = (effects m ++ d)%list /\
    forall e, e ∈ d ->
      (exists h, e = Dispose h /\ h ∈ _tensorboards m /\
                 (ITensorboard.name h ∉ names fetched)) \/
      (exists snapshot, e = Emit snapshot).
Proof.
  unfold _refreshRunning_then.
  destruct (negb (deepEqual fetched (models (set_isReady true m)))).
  - destruct (dispose_and_delete_effects dispose_emits_terminated
                (fun h => (indexOf (names fetched) (ITensorboard.name h) =? -1)%Z)
                (set_isReady true m)) as (d & He & Hall).
    exists (d ++ [Emit fetched])%list. split.
    + cbn [effects emit log assign_models]. rewrite He.
      cbn [effects set_isReady]. rewrite <- app_assoc. reflexivity.
    + intros e Hin. apply elem_of_app in Hin as [Hin|Hin].
      * destruct (Hall e Hin) as [(h & -> & Hd & Hh)|Hs]; [|right; exact Hs].
        left. exists h. split; [reflexivity|]. split; [exact Hh|].
        apply indexOf_none. apply Z.eqb_eq. exact Hd.
      * apply list_elem_of_singleton in Hin. right. eauto.
  - exists []. split; [symmetry; apply app_nil_r|]. intros e He. inversion He.
Qed.

(** X9. The same answer handled twice in a row: the second time changes
    nothing and emits nothing. *)
Theorem refresh_same_answer_twice
    (dispose_emits_terminated : ITensorboard.t -> bool)
    (fetched : list IModel.t) (m : t) :
  let m1 := _refreshRunning_then dispose_emits_terminated fetched m in
  _refreshRunning_then dispose_emits_terminated fetched m1 = m1.
Proof.
  intros m1.
  assert (Hm : models m1 = fetched) by apply _refreshRunning_then_models.
  assert (Hr : _isReady m1 = true) by apply _refreshRunning_then_ready.
  unfold _refreshRunning_then at 1.
  change (models (set_isReady true m1)) with (models m1). rewrite Hm.
  assert (E : deepEqual fetched fetched = true) by (apply deepEqual_spec; reflexivity).
  rewrite E. cbn [negb]. apply set_isReady_same. exact Hr.
Qed.

(** *** Unique names *)

(** X10. That [_models] holds at most one entry per name is kept by every
    operation, provided the lists the backend reports have unique names and
    a handle is called as its model. *)
Theorem unique_names_kept
    (dispose_emits_terminated : ITensorboard.t -> bool) (m : t) :
  NoDup (names (models m)) ->
  (forall tensorboard,
     IModel.name (ITensorboard.model tensorboard) = ITensorboard.name tensorboard ->
     NoDup (names (models (fst (startNew_settle (Fulfilled tensorboard) m))))) /\
  (forall name, NoDup (names (models (_onTerminated name m)))) /\
  (forall name answer,
     NoDup (names (models
       (fst (shutdown_run dispose_emits_terminated name answer m))))) /\
  (forall fetched,
     NoDup (names fetched) ->
     NoDup (names (models
       (fst (_refreshRunning_settle dispose_emits_terminated (Fulfilled fetched) m))))) /\
  NoDup (names (models (fst (shutdownAll_call m)))) /\
  NoDup (names (models (dispose m))).
Proof.
  intros Hnd. split; [|split; [|split; [|split; [|split]]]].
  - intros tb Hname. cbn [startNew_settle fst].
    destruct (decide (ITensorboard.name tb ∈ names (models m))) as [H|H].
    + rewrite _onStarted_present by assumption. exact Hnd.
    + destruct (_onStarted_absent tb m H) as (-> & _).
      rewrite names_app. apply NoDup_app. split; [assumption|].
      split; [|apply NoDup_singleton].
      intros n Hn Hn'. cbn in Hn'. apply list_elem_of_singleton in Hn'.
      subst n. rewrite Hname in Hn. contradiction.
  - intros name. apply _onTerminated_unique. exact Hnd.
  - intros name answer.
    destruct (decide (name ∈ names (models m))) as [Hin|Hout].
    + rewrite shutdown_run_present by assumption.
      destruct (named_present _ _ Hin) as (before & x & after & E & Hx & Hb & _).
      rewrite (shutdown_call_present name m before x after E Hx Hb). cbn [fst].
      assert (Hsent : NoDup (names (models
                 (log (RequestShutdown name)
                    (emit (before ++ after)
                       (update_models (splice1 (Z.of_nat (length before))) m)))))).
      { change (NoDup (names (models
                 (update_models (splice1 (Z.of_nat (length before))) m)))).
        rewrite models_update_models, E, splice1_first.
        rewrite E in Hnd. eapply NoDup_names_remove. eassumption. }
      destruct answer as [[]|reason]; cbn [shutdown_settle fst]; [|exact Hsent].
      unfold shutdown_then. apply dispose_and_delete_unique. exact Hsent.
    + unfold shutdown_run. rewrite shutdown_call_absent by assumption. exact Hnd.
  - intros fetched Hf. cbn [_refreshRunning_settle fst].
    rewrite _refreshRunning_then_models. exact Hf.
  - unfold shutdownAll_call. cbn [fst].
    destruct (0 <? Z.of_nat (length (read (_models m) m)))%Z; [|exact Hnd].
    change (NoDup (names (models (assign_models [] m)))).
    rewrite models_assign_models. apply NoDup_nil_2.
  - unfold dispose. destruct (_isDisposed m); [exact Hnd|].
    rewrite models_assign_models. apply NoDup_nil_2.
Qed.

Lemma unique_names_kept_witness :
  NoDup (names (models (fst (startNew_settle (Fulfilled Fixtures.h2) Fixtures.started)))) /\
  NoDup (names (models
    (fst (shutdown_run Fixtures.always "tb1" (Fulfilled tt) Fixtures.started)))).
Proof.
  assert (Hnd : NoDup (names (models Fixtures.started))).
  { vm_compute. apply NoDup_singleton. }
  destruct (unique_names_kept Fixtures.always Fixtures.started Hnd)
    as (Hstart & _ & Hshut & _).
  split; [apply Hstart; reflexivity|apply Hshut].
Defined.

(** *** [shutdownAll] *)

(** X12. [shutdownAll] keeps the array of [_models], not a copy.  Called while
    [_models] is empty, it does not replace that array; an instance whose
    [startNew] is fulfilled before the poll of [shutdownAll] answers is
    pushed to it, and when the poll reports just that instance (no change),
    its shutdown is requested, while [_models] goes on listing it and no
    change event says otherwise. *)
Theorem shutdownAll_shuts_down_later_start
    (dispose_emits_terminated : ITensorboard.t -> bool)
    (tensorboard : ITensorboard.t) (m : t) :
  models m = [] ->
  let kept := snd (shutdownAll_call m) in
  let m1 := fst (shutdownAll_call m) in
  let m2 := fst (startNew_settle (Fulfilled tensorboard) m1) in
  let m3 :=
    fst (_refreshRunning_settle dispose_emits_terminated
           (Fulfilled [ITensorboard.model tensorboard]) m2) in
  let m4 := shutdownAll_requests kept m3 in
  effects m4 =
    (effects m ++
     [RequestListRunning; Emit [ITensorboard.model tensorboard];
      RequestShutdown (IModel.name (ITensorboard.model tensorboard))])%list /\
  models m4 = [ITensorboard.model tensorboard].
Proof.
  intros Hm.
  assert (Hcall : shutdownAll_call m = (log RequestListRunning m, _models m)).
  { unfold shutdownAll_call. fold (models m). rewrite Hm. reflexivity. }
  cbv zeta. rewrite Hcall. cbn [fst snd].
  set (m2 := fst (startNew_settle (Fulfilled tensorboard) (log RequestListRunning m))).
  set (m3 := fst (_refreshRunning_settle dispose_emits_terminated
                    (Fulfilled [ITensorboard.model tensorboard]) m2)).
  set (m4 := shutdownAll_requests (_models m) m3).
  assert (Habs : ITensorboard.name tensorboard ∉ names (models (log RequestListRunning m))).
  { change (ITensorboard.name tensorboard ∉ names (models m)). rewrite Hm.
    apply not_elem_of_nil. }
  destruct (_onStarted_absent tensorboard _ Habs) as (Hm2 & He2 & _).
  change (models (log RequestListRunning m)) with (models m) in Hm2, He2.
  rewrite Hm in Hm2, He2. cbn [app] in Hm2, He2.
  change (_onStarted tensorboard (log RequestListRunning m)) with m2 in Hm2, He2.
  assert (Hm3 : m3 = set_isReady true m2).
  { subst m3. cbn [_refreshRunning_settle fst]. unfold _refreshRunning_then.
    change (models (set_isReady true m2)) with (models m2). rewrite Hm2.
    assert (E : deepEqual [ITensorboard.model tensorboard]
                          [ITensorboard.model tensorboard] = true)
      by (apply deepEqual_spec; reflexivity).
    rewrite E. reflexivity. }
  assert (Hr : _models m2 = _models m).
  { subst m2. cbn [startNew_settle fst]. unfold _onStarted.
    destruct (findFirstIndex _ _ =? -1)%Z; reflexivity. }
  destruct (shutdownAll_requests_spec (_models m) m3) as (He4 & Hm4 & _).
  fold m4 in He4, Hm4.
  assert (Hread : read (_models m) m3 = [ITensorboard.model tensorboard]).
  { rewrite Hm3. change (read (_models m) m2 = [ITensorboard.model tensorboard]).
    rewrite <- Hr. exact Hm2. }
  split.
  - rewrite He4, Hread, Hm3. cbn [effects set_isReady]. rewrite He2.
    cbn [effects log]. rewrite <- !app_assoc. reflexivity.
  - rewrite Hm4, Hm3. exact Hm2.
Qed.

Lemma shutdownAll_shuts_down_later_start_witness :
  let m1 := fst (shutdownAll_call constructor) in
  let m2 := fst (startNew_settle (Fulfilled Fixtures.h1) m1) in
  let m3 := fst (_refreshRunning_settle Fixtures.never (Fulfilled [Fixtures.tb1]) m2) in
  effects (shutdownAll_requests (snd (shutdownAll_call constructor)) m3) =
    (effects constructor ++
     [RequestListRunning; Emit [Fixtures.tb1]; RequestShutdown "tb1"])%list.
Proof.
  apply (shutdownAll_shuts_down_later_start Fixtures.never Fixtures.h1 constructor).
  reflexivity.
Defined.

(** X13. Of the shutdowns of [shutdownAll] only the first one that is fulfilled
    disposes of handles: it empties the handle set, and a later answer,
    fulfilled or rejected, finds nothing to do. *)
Theorem shutdownAll_first_answer_disposes
    (dispose_emits_terminated : ITensorboard.t -> bool)
    (later : Settled unit) (m : t) :
  let m1 := shutdownAll_shutdown_settle dispose_emits_terminated (Fulfilled tt) m in
  _tensorboards m1 = [] /\
  (forall h, h ∈ _tensorboards m -> Dispose h ∈ effects m1) /\
  shutdownAll_shutdown_settle dispose_emits_terminated later m1 = m1.
Proof.
  intros m1.
  destruct (shutdownAll_then_shutdown_spec dispose_emits_terminated m) as (Ht & Hd).
  split; [exact Ht|]. split; [exact Hd|].
  destruct later as [[]|reason]; [|reflexivity].
  cbn [shutdownAll_shutdown_settle]. unfold shutdownAll_then_shutdown.
  apply dispose_and_delete_no_handles. exact Ht.
Qed.

(** *** The handle set *)

(** X11. Only a fulfilled [startNew] adds a handle: after a termination notice,
    the answer to a poll, a whole [shutdown], the synchronous part of
    [shutdownAll], the answer to one of its shutdowns, a rejected
    [startNew] or [dispose()], every handle held was held before. *)
Theorem handles_grow_by_start_only
    (dispose_emits_terminated : ITensorboard.t -> bool)
    (m : t) (h : ITensorboard.t) :
  (forall name, h ∈ _tensorboards (_onTerminated name m) -> h ∈ _tensorboards m) /\
  (forall answer,
     h ∈ _tensorboards (fst (_refreshRunning_settle dispose_emits_terminated answer m)) ->
     h ∈ _tensorboards m) /\
  (forall name answer,
     h ∈ _tensorboards (fst (shutdown_run dispose_emits_terminated name answer m)) ->
     h ∈ _tensorboards m) /\
  (h ∈ _tensorboards (fst (shutdownAll_call m)) -> h ∈ _tensorboards m) /\
  (forall answer,
     h ∈ _tensorboards (shutdownAll_shutdown_settle dispose_emits_terminated answer m) ->
     h ∈ _tensorboards m) /\
  (forall reason,
     h ∈ _tensorboards (fst (startNew_settle (Rejected reason) m)) ->
     h ∈ _tensorboards m) /\
  (h ∈ _tensorboards (dispose m) -> h ∈ _tensorboards m).
Proof.
  assert (Hdd : forall doomed m0,
            h ∈ _tensorboards (dispose_and_delete dispose_emits_terminated doomed m0) ->
            h ∈ _tensorboards m0).
  { intros doomed m0. rewrite dispose_and_delete_tensorboards.
    intros H. apply list_elem_of_filter in H as [_ H]. exact H. }
  split; [|split; [|split; [|split; [|split; [|split]]]]].
  - intros name. destruct (_onTerminated_frame name m) as (-> & _). trivial.
  - intros [fetched|reason]; cbn [_refreshRunning_settle fst]; [|trivial].
    unfold _refreshRunning_then.
    destruct (negb (deepEqual fetched (models (set_isReady true m)))); [|trivial].
    cbn [_tensorboards emit log assign_models]. apply (Hdd _ (set_isReady true m)).
  - intros name answer.
    destruct (decide (name ∈ names (models m))) as [Hin|Hout].
    + rewrite shutdown_run_present by assumption.
      pose proof (shutdown_call_tensorboards name m) as Ht.
      destruct answer as [[]|reason]; cbn [shutdown_settle fst].
      * unfold shutdown_then. intros H. apply Hdd in H. rewrite Ht in H. exact H.
      * rewrite Ht. trivial.
    + unfold shutdown_run. rewrite shutdown_call_absent by assumption. trivial.
  - unfold shutdownAll_call. cbn [fst].
    destruct (0 <? Z.of_nat (length (read (_models m) m)))%Z; trivial.
  - intros [[]|reason]; cbn [shutdownAll_shutdown_settle]; [|trivial].
    unfold shutdownAll_then_shutdown. apply Hdd.
  - intros reason. trivial.
  - unfold dispose. destruct (_isDisposed m); trivial.
Qed.

End ManagerExtras.

(** ** Further properties of the formatter *)

Module FormatDirExtras.
Import JsString JsStringFacts FormatDir FormatDirSpec FormatDirFacts
  FormatDirSpecFacts.

(** *** Helper facts *)

Lemma has_char_app c a b :
  has_char c (a +:+ b) = has_char c a || has_char c b.
Proof.
  induction a as [|d a IH]; [reflexivity|].
  change (has_char c (String d (a +:+ b)) = has_char c (String d a) || has_char c b).
  cbn [has_char]. rewrite IH. apply orb_assoc.
Qed.

Lemma join_cons_nonempty sep x y rest :
  join sep (x :: y :: rest) = x +:+ sep +:+ join sep (y :: rest).
Proof. reflexivity. Qed.

(** Splitting on a character and joining with it gives the string back. *)
Lemma join_split sep s : join (String sep "") (split sep s) = s.
Proof.
  induction s as [|c s IH]; [reflexivity|].
  cbn [split]. destruct (Ascii.eqb_spec c sep) as [->|Hne].
  - destruct (split sep s) as [|y rest] eqn:E; [exfalso; exact (split_nonempty _ _ E)|].
    rewrite join_cons_nonempty, IH. reflexivity.
  - destruct (split sep s) as [|y rest] eqn:E; [exfalso; exact (split_nonempty _ _ E)|].
    destruct rest as [|z rest].
    + cbn [join] in *. congruence.
    + rewrite join_cons_nonempty in *.
      change (String c (y +:+ String sep "" +:+ join (String sep "") (z :: rest))
              = String c s).
      congruence.
Qed.

Lemma split_app_sep sep x r :
  has_char sep x = false -> split sep (x +:+ String sep r) = x :: split sep r.
Proof.
  induction x as [|c x IH]; intros H.
  - change (split sep (String sep r) = "" :: split sep r).
    cbn [split]. rewrite Ascii.eqb_refl. reflexivity.
  - cbn [has_char] in H. apply orb_false_iff in H as [Hc Hx].
    change (split sep (String c (x +:+ String sep r)) = String c x :: split sep r).
    cbn [split]. rewrite Hc, (IH Hx). reflexivity.
Qed.

(** Joining pieces that do not hold the separator and splitting again gives
    the pieces back. *)
Lemma split_join sep (l : list string) :
  l <> [] -> Forall (fun x => has_char sep x = false) l ->
  split sep (join (String sep "") l) = l.
Proof.
  induction l as [|x l IH]; intros Hne Hall; [congruence|].
  apply Forall_cons in Hall as [Hx Hall].
  destruct l as [|y l].
  - cbn [join]. apply split_no_sep. exact Hx.
  - rewrite join_cons_nonempty.
    change (String sep "" +:+ join (String sep "") (y :: l))
      with (String sep (join (String sep "") (y :: l))).
    rewrite split_app_sep by exact Hx. f_equal. apply IH; [discriminate|exact Hall].
Qed.

Lemma cut_some sep s l r :
  cut sep s = Some (l, r) -> s = l +:+ String sep r.
Proof.
  revert l. induction s as [|c s IH]; intros l H; cbn [cut] in H; [discriminate|].
  destruct (Ascii.eqb_spec c sep) as [->|Hne].
  - injection H as <- <-. reflexivity.
  - destruct (cut sep s) as [[a b]|]; [|discriminate].
    injection H as <- <-. rewrite (IH a eq_refl) at 1. reflexivity.
Qed.

Lemma strip_leading_slash_has_char c s :
  has_char c s = false -> has_char c (strip_leading_slash s) = false.
Proof.
  destruct s as [|d s]; [trivial|]. cbn [strip_leading_slash has_char].
  intros H. destruct (Ascii.eqb d "/"); [|exact H].
  apply orb_false_iff in H as [_ H]. exact H.
Qed.

(** What [formatSingle] returns: the directory itself, the sentinel, or the
    directory without the root and without one slash after it. *)
Lemma formatSingle_cases pageRoot dir :
  formatSingle pageRoot dir = dir \/
  exists root rest,
    pageRoot = Some root /\ root <> "" /\ dir = root +:+ rest /\
    formatSingle pageRoot dir =
      (if String.eqb (strip_leading_slash rest) ""
       then workspace_root_sentinel else strip_leading_slash rest).
Proof.
  destruct pageRoot as [root|]; [|left; reflexivity].
  destruct root as [|c root]; [left; reflexivity|].
  destruct (String.prefix (String c root) dir) eqn:Hp.
  - right. destruct (prefix_inv _ _ Hp) as [rest ->].
    exists (String c root), rest. repeat split; [discriminate|].
    apply formatSingle_under_root. discriminate.
  - left. apply formatSingle_outside_root. exact Hp.
Qed.

Lemma formatSingle_has_char c pageRoot dir :
  has_char c workspace_root_sentinel = false ->
  has_char c dir = false -> has_char c (formatSingle pageRoot dir) = false.
Proof.
  intros Hs Hd.
  destruct (formatSingle_cases pageRoot dir)
    as [->|(root & rest & _ & _ & -> & ->)]; [exact Hd|].
  destruct (String.eqb (strip_leading_slash rest) ""); [exact Hs|].
  apply strip_leading_slash_has_char.
  rewrite has_char_app in Hd. apply orb_false_iff in Hd as [_ Hd]. exact Hd.
Qed.

Lemma append_assoc_string (a b c : string) : (a +:+ b) +:+ c = a +:+ (b +:+ c).
Proof.
  induction a as [|d a IH]; [reflexivity|].
  change (String d ((a +:+ b) +:+ c) = String d (a +:+ (b +:+ c))).
  f_equal. exact IH.
Qed.

Lemma strip_leading_slash_suffix s : exists p, s = p +:+ strip_leading_slash s.
Proof.
  destruct s as [|c s]; [exists ""; reflexivity|].
  cbn [strip_leading_slash]. destruct (Ascii.eqb c "/").
  - exists (String c ""). reflexivity.
  - exists "". reflexivity.
Qed.

Lemma formatSegment_has_char c pageRoot segment :
  has_char c workspace_root_sentinel = false -> has_char c ":" = false ->
  has_char c segment = false ->
  has_char c (formatSegment pageRoot segment) = false.
Proof.
  intros Hs Hcolon Hseg.
  destruct (cut ":" segment) as [[label rawpath]|] eqn:E.
  - rewrite (formatSegment_cut _ _ _ _ E).
    pose proof (cut_some _ _ _ _ E) as ->.
    rewrite has_char_app in Hseg. apply orb_false_iff in Hseg as [Hl Hr].
    change (has_char c (String ":" rawpath) = false) in Hr.
    cbn [has_char] in Hr. apply orb_false_iff in Hr as [_ Hr].
    rewrite !has_char_app, Hl, Hcolon. cbn [orb].
    apply formatSingle_has_char; [exact Hs|].
    unfold at_. destruct (split ":" rawpath !! 0%nat) as [piece|] eqn:Ep.
    + cbn [default]. apply (split_has_char c ":" rawpath piece).
      * eapply list_elem_of_lookup_2. eassumption.
      * left. exact Hr.
    + destruct (split ":" rawpath) eqn:Es; [|discriminate].
      exfalso. exact (split_nonempty _ _ Es).
  - unfold formatSegment. rewrite includes_char.
    apply cut_none in E. rewrite E.
    apply formatSingle_has_char; assumption.
Qed.

(** *** No workspace root *)

(** X14. Without a workspace root (no static configuration yet, or an empty
    [notebook_dir]) [formatDir] returns the directory string unchanged,
    provided that, when it lists several directories, no segment holds more
    than one colon. *)
Theorem formatDir_without_root (cfg : option StaticConfig) (dir : string) :
  (forall c, cfg = Some c -> notebook_dir c = "") ->
  (includes "," dir = true ->
   forall segment label rawpath,
     segment ∈ split "," dir ->
     cut ":" segment = Some (label, rawpath) -> has_char ":" rawpath = false) ->
  formatDir cfg dir = Some dir.
Proof.
  intros Hroot Hone.
  assert (Hid : forall d, formatSingle (notebook_dir <$> cfg) d = d).
  { intros d. destruct cfg as [c|]; [|reflexivity].
    cbn. rewrite (Hroot c eq_refl). reflexivity. }
  unfold formatDir. rewrite formatDir_fuel_enough.
  destruct (includes "," dir) eqn:Hc; [|rewrite Hid; reflexivity].
  f_equal. rewrite <- (join_split "," dir) at 2. f_equal.
  rewrite <- (list_fmap_id (split "," dir)) at 2.
  apply list_fmap_ext. intros i segment Hi.
  assert (Hin : segment ∈ split "," dir).
  { eapply list_elem_of_lookup_2. eassumption. }
  destruct (cut ":" segment) as [[label rawpath]|] eqn:E.
  - rewrite (formatSegment_cut _ _ _ _ E), Hid.
    rewrite (split_no_sep _ _ (Hone eq_refl segment label rawpath Hin E)).
    symmetry. apply (cut_some _ _ _ _ E).
  - unfold formatSegment. rewrite includes_char.
    apply cut_none in E. rewrite E. apply Hid.
Qed.

Lemma formatDir_without_root_witness :
  formatDir None "/home/user/a,label:/home/user/b"
  = Some "/home/user/a,label:/home/user/b".
Proof.
  apply formatDir_without_root.
  - intros c H. discriminate.
  - intros _ segment label rawpath Hin Hcut.
    vm_compute in Hin.
    apply elem_of_cons in Hin as [->|Hin].
    + vm_compute in Hcut. discriminate.
    + apply list_elem_of_singleton in Hin. subst segment.
      vm_compute in Hcut. injection Hcut as <- <-. reflexivity.
Defined.

(** *** One directory *)

(** X15. For a directory string without a comma that is not empty, the result is
    never empty, and it is either the sentinel or what is left of the
    directory after dropping characters at its front. *)
Theorem formatDir_comma_free_nonempty (cfg : option StaticConfig) (dir : string) :
  includes "," dir = false -> dir <> "" ->
  exists r,
    formatDir cfg dir = Some r /\ r <> "" /\
    (r = "<workspace_root>" \/ exists p, dir = p +:+ r).
Proof.
  intros Hc Hne. unfold formatDir. rewrite formatDir_fuel_enough, Hc.
  eexists. split; [reflexivity|].
  destruct (formatSingle_cases (notebook_dir <$> cfg) dir)
    as [->|(root & rest & _ & _ & -> & ->)].
  - split; [exact Hne|]. right. exists "". reflexivity.
  - destruct (strip_leading_slash rest) as [|c r] eqn:E.
    + split; [discriminate|]. left. reflexivity.
    + change (String.eqb (String c r) "") with false. cbv iota.
      split; [discriminate|]. right.
      destruct (strip_leading_slash_suffix rest) as [p Hp]. rewrite E in Hp.
      exists (root +:+ p). rewrite append_assoc_string, <- Hp. reflexivity.
Qed.

Lemma formatDir_comma_free_nonempty_witness :
  exists r,
    formatDir (Some {| notebook_dir := "/home/user" |}) "/home/user/" = Some r /\
    r <> "" /\
    (r = "<workspace_root>" \/ exists p, "/home/user/" = p +:+ r).
Proof.
  apply formatDir_comma_free_nonempty; [reflexivity|discriminate].
Defined.

(** *** Several directories *)

(** X16. For a directory string with commas the result has as many
    comma-separated segments as the input: formatting a segment never yields
    a comma. *)
Theorem formatDir_keeps_segments (cfg : option StaticConfig) (dir : string) :
  includes "," dir = true ->
  exists r,
    formatDir cfg dir = Some r /\
    length (split "," r) = length (split "," dir).
Proof.
  intros Hc. unfold formatDir. rewrite formatDir_fuel_enough, Hc.
  eexists. split; [reflexivity|].
  rewrite split_join.
  - apply length_fmap.
  - intros E. apply fmap_nil_inv in E. exact (split_nonempty _ _ E).
  - apply Forall_fmap, Forall_forall. intros segment Hin. cbn.
    apply formatSegment_has_char; [reflexivity|reflexivity|].
    apply (split_has_char "," "," dir segment Hin). right. reflexivity.
Qed.

Lemma formatDir_keeps_segments_witness :
  exists r,
    formatDir (Some {| notebook_dir := "/home/user" |})
      "/home/user/a,run:gs://bucket/logs,/home/user" = Some r /\
    length (split "," r) =
    length (split "," "/home/user/a,run:gs://bucket/logs,/home/user").
Proof.
  apply formatDir_keeps_segments. reflexivity.
Defined.

End FormatDirExtras.

(** ** The iterator of [running()] *)

Module RunningIteratorExtras.
Import JsArray JsArrayFacts TensorboardManager ManagerSpec ManagerFacts
  ManagerClaims ManagerExtras RunningIterator.

(** [toArray] yields the array from the index of the iterator on. *)
Lemma toArray_fuel_drop fuel :
  forall it m,
    (length (read (_source it) m) < _index it + fuel)%nat ->
    toArray_fuel fuel it m = drop (_index it) (read (_source it) m).
Proof.
  induction fuel as [|fuel IH]; intros it m Hlen.
  - rewrite drop_ge by lia. reflexivity.
  - cbn [toArray_fuel]. unfold next.
    destruct (read (_source it) m !! _index it) as [value|] eqn:E.
    + rewrite (drop_S _ _ _ E). f_equal.
      apply (IH {| _source := _source it; _index := S (_index it) |} m).
      cbn. lia.
    + apply lookup_ge_None in E. rewrite drop_ge by lia. reflexivity.
Qed.

Lemma toArray_running_iter m0 m :
  toArray (running_iter m0) m = read (_models m0) m.
Proof.
  unfold toArray. rewrite toArray_fuel_drop; [reflexivity|]. cbn. lia.
Qed.

(** X17. [running()] iterates over the array of [_models] itself: an iterator
    taken before a [startNew] that appends an entry, and consumed after it,
    yields that entry too. *)
Theorem running_iterator_follows_start (tensorboard : ITensorboard.t) (m : t) :
  (ITensorboard.name tensorboard ∉ names (models m)) ->
  toArray (running_iter m) (fst (startNew_settle (Fulfilled tensorboard) m))
  = (models m ++ [ITensorboard.model tensorboard])%list.
Proof.
  intros H. rewrite toArray_running_iter. cbn [startNew_settle fst].
  destruct (_onStarted_absent tensorboard m H) as (<- & _).
  unfold models. f_equal. unfold _onStarted.
  destruct (findFirstIndex _ _ =? -1)%Z; reflexivity.
Qed.

Lemma running_iterator_follows_start_witness :
  toArray (running_iter Fixtures.started)
    (fst (startNew_settle (Fulfilled Fixtures.h2) Fixtures.started))
  = [Fixtures.tb1; Fixtures.tb2].
Proof.
  apply (running_iterator_follows_start Fixtures.h2 Fixtures.started).
  vm_compute. intros H. apply list_elem_of_singleton in H. discriminate.
Defined.

(** X18. A poll that finds a change replaces the array: with no handle held, an
    iterator taken before the answer goes on yielding the old list, and only
    a new call of [running()] yields the fetched one. *)
Theorem running_iterator_misses_refresh
    (dispose_emits_terminated : ITensorboard.t -> bool)
    (fetched : list IModel.t) (m : t) :
  allocated m -> _tensorboards m = [] ->
  deepEqual fetched (models m) = false ->
  let m' := _refreshRunning_then dispose_emits_terminated fetched m in
  toArray (running_iter m) m' = models m /\
  toArray (running_iter m') m' = fetched.
Proof.
  intros Ha Hh Hneq m'. rewrite !toArray_running_iter. split.
  - subst m'. unfold _refreshRunning_then.
    change (models (set_isReady true m)) with (models m). rewrite Hneq.
    cbn [negb]. cbv zeta.
    rewrite dispose_and_delete_no_handles by exact Hh.
    change (read (_models m) (assign_models fetched (set_isReady true m)) = models m).
    rewrite read_assign_models by exact Ha. reflexivity.
  - apply _refreshRunning_then_models.
Qed.

Lemma running_iterator_misses_refresh_witness :
  toArray (running_iter constructor)
    (_refreshRunning_then Fixtures.never [Fixtures.tb1] constructor) = [] /\
  toArray (running_iter (_refreshRunning_then Fixtures.never [Fixtures.tb1] constructor))
    (_refreshRunning_then Fixtures.never [Fixtures.tb1] constructor) = [Fixtures.tb1].
Proof.
  apply (running_iterator_misses_refresh Fixtures.never [Fixtures.tb1] constructor).
  - apply allocated_constructor.
  - reflexivity.
  - reflexivity.
Defined.

End RunningIteratorExtras.

(** ** The tab component on top of the manager *)

Module TabExtras.
Import JsArray JsArrayFacts TensorboardManager ManagerSpec ManagerFacts
  ManagerClaims ManagerExtras.
Import TensorboardTab.

(** *** Helper facts *)

Lemma Array_find_name_none n (l : list IModel.t) :
  Array_find (fun model => String.eqb (IModel.name model) n) l = None <->
  n ∉ names l.
Proof.
  induction l as [|x l IH]; cbn [Array_find].
  - split; [intros _; apply not_elem_of_nil|reflexivity].
  - cbn. rewrite not_elem_of_cons.
    destruct (String.eqb_spec (IModel.name x) n) as [E|E].
    + split; [discriminate|]. intros [H _]. congruence.
    + rewrite IH. split; [intros H; split; [congruence|exact H]|tauto].
Qed.

Lemma set_manager_same (tab : TensorboardTab.t) :
  set_manager (tensorboardManager tab) tab = tab.
Proof. destruct tab. reflexivity. Qed.

(** The promise of [shutdown] is pending, or nothing was done at all. *)
Lemma shutdown_call_outcome name (m : TensorboardManager.t) :
  (name ∈ names (models m) /\ snd (shutdown_call name m) = Pending) \/
  ((name ∉ names (models m)) /\ shutdown_call name m = (m, Done (Fulfilled tt))).
Proof.
  destruct (decide (name ∈ names (models m))) as [Hin|Hout].
  - left. split; [exact Hin|].
    destruct (named_present _ _ Hin) as (before & x & after & E & Hx & Hb & _).
    rewrite (shutdown_call_present name m before x after E Hx Hb). reflexivity.
  - right. split; [exact Hout|]. apply shutdown_call_absent. exact Hout.
Qed.

(** The promise of [manager.shutdown] as the tab sees it is the one of
    [shutdown_run]. *)
Lemma shutdown_settled_run
    (dispose_emits_terminated : ITensorboard.t -> bool)
    name answer (tab : TensorboardTab.t) :
  let sent := shutdown_call name (tensorboardManager tab) in
  let after :=
    shutdown_settled dispose_emits_terminated name (snd sent) answer
      (set_manager (fst sent) tab) in
  tensorboardManager (fst after) =
    fst (shutdown_run dispose_emits_terminated name answer (tensorboardManager tab)) /\
  snd after =
    snd (shutdown_run dispose_emits_terminated name answer (tensorboardManager tab)) /\
  calls (fst after) = calls tab /\
  reloadPending (fst after) = reloadPending tab /\
  createPending (fst after) = createPending tab /\
  currentTensorBoard (fst after) = currentTensorBoard tab /\
  currentTensorBoardRef (fst after) = currentTensorBoardRef tab.
Proof.
  cbv zeta. unfold shutdown_run, shutdown_settled.
  destruct (shutdown_call name (tensorboardManager tab)) as [m1 [|result]];
    cbn [fst snd].
  - cbn [tensorboardManager set_manager].
    destruct (shutdown_settle dispose_emits_terminated name answer m1) as [m2 r].
    repeat split.
  - repeat split.
Qed.

(** *** [reloadTensorBoard] *)

(** The tab as [reloadTensorBoard] leaves it before calling the manager. *)
Lemma reloadTensorBoard_call_unfold current (tab : TensorboardTab.t) :
  currentTensorBoard tab = Some current ->
  let tab0 := updateCurrentTensorBoard None (set_reloadPending true tab) in
  let sent := shutdown_call (IModel.name current) (tensorboardManager tab) in
  reloadTensorBoard_call tab =
    (set_manager (fst sent) tab0, Some (current, snd sent)).
Proof.
  intros H. unfold reloadTensorBoard_call. rewrite H. cbv zeta.
  change (tensorboardManager (updateCurrentTensorBoard None (set_reloadPending true tab)))
    with (tensorboardManager tab).
  destruct (shutdown_call (IModel.name current) (tensorboardManager tab)).
  reflexivity.
Qed.

(** X19. A reload whose shutdown and start both succeed.  The manager is left as
    [shutdown] followed by [startNew] leave it: the [refreshRunning()] at the
    end of the reload requests no poll, because [reloadPending] is reset only
    after it.  And the model made current again is the one from before the
    reload, whatever model the handle returned by [startNew] carries. *)
Theorem reload_skips_refresh_and_restores_old_model
    (dispose_emits_terminated : ITensorboard.t -> bool)
    (DEFAULT_REFRESH_INTERVAL : Z)
    (current : IModel.t) (tensorboard : ITensorboard.t)
    (tab : TensorboardTab.t) :
  currentTensorBoard tab = Some current ->
  let reloadInterval :=
    match IModel.reload_interval current with
    | Some interval => interval
    | None => DEFAULT_REFRESH_INTERVAL
    end in
  let step1 := reloadTensorBoard_call tab in
  exists outcome,
    snd step1 = Some (current, outcome) /\
    let step2 :=
      reload_after_shutdown dispose_emits_terminated DEFAULT_REFRESH_INTERVAL
        current outcome (Fulfilled tt) (fst step1) in
    snd step2 = true /\
    let tab' := reload_after_start current (Fulfilled tensorboard) (fst step2) in
    tensorboardManager tab' =
      _onStarted tensorboard
        (startNew_call (IModel.logdir current) reloadInterval
           (IModel.enable_multi_log current) (IModel.additional_args current)
           (fst (shutdown_run dispose_emits_terminated (IModel.name current)
                   (Fulfilled tt) (tensorboardManager tab)))) /\
    reloadPending tab' = false /\
    currentTensorBoard tab' = Some current /\
    currentTensorBoardRef tab' = Some current /\
    calls tab' =
      (calls tab ++ [UpdateCurrentModel None; UpdateCurrentModel (Some current)])%list.
Proof.
  intros Hcur reloadInterval step1. subst step1.
  rewrite (reloadTensorBoard_call_unfold current tab Hcur). cbn [fst snd].
  set (tab0 := updateCurrentTensorBoard None (set_reloadPending true tab)).
  eexists. split; [reflexivity|].
  destruct (shutdown_settled_run dispose_emits_terminated (IModel.name current)
              (Fulfilled tt) tab0) as (Hm & Hr & Hc & Hp & _).
  change (tensorboardManager tab0) with (tensorboardManager tab) in *.
  assert (Hres : snd (shutdown_run dispose_emits_terminated (IModel.name current)
                        (Fulfilled tt) (tensorboardManager tab)) = Fulfilled tt).
  { unfold shutdown_run.
    destruct (shutdown_call_outcome (IModel.name current) (tensorboardManager tab))
      as [[_ Hpend]|[_ ->]]; [|reflexivity].
    destruct (shutdown_call (IModel.name current) (tensorboardManager tab)) as [m1 o].
    cbn in Hpend. subst o. reflexivity. }
  rewrite Hres in Hr.
  unfold reload_after_shutdown.
  destruct (shutdown_settled dispose_emits_terminated (IModel.name current)
              (snd (shutdown_call (IModel.name current) (tensorboardManager tab)))
              (Fulfilled tt)
              (set_manager (fst (shutdown_call (IModel.name current)
                                   (tensorboardManager tab))) tab0))
    as [tab1 result] eqn:E.
  cbn [fst snd] in Hm, Hr, Hc, Hp. subst result.
  cbn [fst snd]. split; [reflexivity|].
  unfold reload_after_start. cbn [startNew_settle].
  cbn [tensorboardManager set_manager].
  unfold refreshRunning_call.
  cbn [reloadPending createPending set_manager].
  rewrite Hp. change (reloadPending tab0) with true. rewrite orb_true_r.
  cbn [fst]. fold reloadInterval. rewrite Hm.
  repeat split.
  cbn [calls updateCurrentTensorBoard set_currentTensorBoardRef
       setCurrentTensorBoard call set_reloadPending set_manager].
  rewrite Hc. cbn. rewrite <- app_assoc. reflexivity.
Qed.

Lemma reload_skips_refresh_and_restores_old_model_witness :
  exists outcome,
    snd (reloadTensorBoard_call TabFixtures.showing)
      = Some (Fixtures.tb1, outcome) /\
    currentTensorBoard
      (reload_after_start Fixtures.tb1 (Fulfilled Fixtures.h2)
         (fst (reload_after_shutdown Fixtures.always 0 Fixtures.tb1 outcome
                 (Fulfilled tt) (fst (reloadTensorBoard_call TabFixtures.showing)))))
      = Some Fixtures.tb1.
Proof.
  destruct (reload_skips_refresh_and_restores_old_model Fixtures.always 0
              Fixtures.tb1 Fixtures.h2 TabFixtures.showing eq_refl)
    as (outcome & H1 & _ & _ & _ & Hcur & _).
  exists outcome. split; [exact H1|exact Hcur].
Defined.

(** X20. A reload whose shutdown is rejected by the backend: [startNew] is not
    called, the error dialog is shown and the widget is closed, while the
    manager has already dropped the entry from [_models]; the tab keeps
    [reloadPending] set and has no current model. *)
Theorem reload_rejected_shutdown_closes_widget
    (dispose_emits_terminated : ITensorboard.t -> bool)
    (DEFAULT_REFRESH_INTERVAL : Z)
    (current : IModel.t) (reason : string) (tab : TensorboardTab.t) :
  currentTensorBoard tab = Some current ->
  IModel.name current ∈ names (models (tensorboardManager tab)) ->
  let step1 := reloadTensorBoard_call tab in
  let step2 :=
    reload_after_shutdown dispose_emits_terminated DEFAULT_REFRESH_INTERVAL
      current Pending (Rejected reason) (fst step1) in
  snd step1 = Some (current, Pending) /\
  snd step2 = false /\
  tensorboardManager (fst step2) =
    fst (shutdown_call (IModel.name current) (tensorboardManager tab)) /\
  calls (fst step2) =
    (calls tab ++
     [UpdateCurrentModel None;
      ShowDialog "TensorBoard Reload Error"
        "The panel has been closed, you can reopen to create new";
      CloseWidget])%list /\
  reloadPending (fst step2) = true /\
  currentTensorBoard (fst step2) = None.
Proof.
  intros Hcur Hin. cbv zeta.
  rewrite (reloadTensorBoard_call_unfold current tab Hcur). cbn [fst snd].
  destruct (shutdown_call_outcome (IModel.name current) (tensorboardManager tab))
    as [[_ Hp]|[Hout _]]; [|contradiction].
  rewrite Hp. split; [reflexivity|].
  unfold reload_after_shutdown, shutdown_settled. cbn [shutdown_settle].
  cbn [fst snd tensorboardManager set_manager].
  repeat split.
  cbn [calls errorCallback call set_manager updateCurrentTensorBoard
       set_currentTensorBoardRef setCurrentTensorBoard set_reloadPending].
  rewrite <- !app_assoc. reflexivity.
Qed.

Lemma reload_rejected_shutdown_closes_widget_witness :
  snd (reload_after_shutdown Fixtures.always 0 Fixtures.tb1 Pending
         (Rejected "boom") (fst (reloadTensorBoard_call TabFixtures.showing)))
  = false /\
  reloadPending
    (fst (reload_after_shutdown Fixtures.always 0 Fixtures.tb1 Pending
            (Rejected "boom") (fst (reloadTensorBoard_call TabFixtures.showing))))
  = true.
Proof.
  assert (Hin : IModel.name Fixtures.tb1 ∈
                names (models (tensorboardManager TabFixtures.showing))).
  { vm_compute. apply list_elem_of_here. }
  destruct (reload_rejected_shutdown_closes_widget Fixtures.always 0
              Fixtures.tb1 "boom" TabFixtures.showing eq_refl Hin)
    as (_ & H2 & _ & _ & H5 & _).
  split; [exact H2|exact H5].
Defined.

(** *** [destroyTensorBoard] *)

Lemma destroyTensorBoard_call_unfold current (tab : TensorboardTab.t) :
  currentTensorBoard tab = Some current ->
  let sent := shutdown_call (IModel.name current) (tensorboardManager tab) in
  destroyTensorBoard_call tab =
    (set_manager (fst sent) tab, Some (current, snd sent)).
Proof.
  intros H. unfold destroyTensorBoard_call. rewrite H. cbv zeta.
  destruct (shutdown_call (IModel.name current) (tensorboardManager tab)).
  reflexivity.
Qed.

(** X21. Destroying the current tensorboard closes the widget only if the
    shutdown is fulfilled.  When the backend rejects it, nothing tells the
    user: the widget stays open with the same current model, although the
    manager has already dropped the entry from [_models]. *)
Theorem destroy_closes_on_success_only
    (dispose_emits_terminated : ITensorboard.t -> bool)
    (current : IModel.t) (answer : Settled unit) (tab : TensorboardTab.t) :
  currentTensorBoard tab = Some current ->
  let step1 := destroyTensorBoard_call tab in
  exists outcome,
    snd step1 = Some (current, outcome) /\
    let tab' :=
      destroy_after_shutdown dispose_emits_terminated current outcome answer
        (fst step1) in
    tensorboardManager tab' =
      fst (shutdown_run dispose_emits_terminated (IModel.name current) answer
             (tensorboardManager tab)) /\
    currentTensorBoard tab' = Some current /\
    calls tab' =
      (calls tab ++
       match snd (shutdown_run dispose_emits_terminated (IModel.name current)
                    answer (tensorboardManager tab)) with
       | Fulfilled _ => [CloseWidget]
       | Rejected _ => []
       end)%list.
Proof.
  intros Hcur. cbv zeta.
  rewrite (destroyTensorBoard_call_unfold current tab Hcur). cbn [fst snd].
  eexists. split; [reflexivity|].
  destruct (shutdown_settled_run dispose_emits_terminated (IModel.name current)
              answer tab) as (Hm & Hr & Hc & _ & _ & Hct & _).
  unfold destroy_after_shutdown.
  destruct (shutdown_settled dispose_emits_terminated (IModel.name current)
              (snd (shutdown_call (IModel.name current) (tensorboardManager tab)))
              answer
              (set_manager (fst (shutdown_call (IModel.name current)
                                   (tensorboardManager tab))) tab))
    as [tab1 result].
  cbn [fst snd] in Hm, Hr, Hc, Hct. rewrite <- Hr.
  destruct result; cbn [tensorboardManager currentTensorBoard calls call];
    rewrite Hm, Hct, Hc, ?app_nil_r; auto.
Qed.

Lemma destroy_closes_on_success_only_witness :
  exists outcome,
    snd (destroyTensorBoard_call TabFixtures.showing)
      = Some (Fixtures.tb1, outcome) /\
    calls (destroy_after_shutdown Fixtures.always Fixtures.tb1 outcome
             (Rejected "boom") (fst (destroyTensorBoard_call TabFixtures.showing)))
      = [].
Proof.
  destruct (destroy_closes_on_success_only Fixtures.always Fixtures.tb1
              (Rejected "boom") TabFixtures.showing eq_refl)
    as (outcome & H1 & _ & _ & Hc).
  exists outcome. split; [exact H1|]. rewrite Hc. reflexivity.
Defined.

(** *** [refreshRunning] of the tab *)

(** What the callback of the tab leaves alone whatever the branch. *)
Lemma refreshRunning_then_frame
    (createdModelName : option string) (setWidgetName : bool)
    (tab : TensorboardTab.t) :
  let tab' := refreshRunning_then createdModelName setWidgetName tab in
  ready tab' = true /\
  runningTensorBoards tab' = models (tensorboardManager tab) /\
  tensorboardManager tab' = tensorboardManager tab /\
  reloadPending tab' = reloadPending tab /\
  createPending tab' = createPending tab.
Proof.
  cbv zeta. unfold refreshRunning_then.
  change (ready (setRunningTensorBoards _ tab)) with (ready tab).
  change (currentTensorBoardRef (setRunningTensorBoards _ tab))
    with (currentTensorBoardRef tab).
  destruct (ready tab) eqn:Hr.
  - destruct (currentTensorBoardRef tab) as [current|]; [|repeat split; exact Hr].
    destruct (Array_find _ _); repeat split; exact Hr.
  - destruct (match createdModelName with
              | Some created => _ | None => None end) as [model|].
    + destruct setWidgetName; repeat split.
    + repeat split.
Qed.

(** X22. After a poll that is fulfilled, the tab is ready and the list it shows
    is the list the backend reported, which the manager caches; a poll that
    is rejected changes nothing in the tab, which stays not ready if it was
    not. *)
Theorem tab_refresh_shows_fetched
    (dispose_emits_terminated : ITensorboard.t -> bool)
    (createdModelName : option string) (setWidgetName : bool)
    (answer : Settled (list IModel.t)) (tab : TensorboardTab.t) :
  let tab' :=
    refreshRunning_settle dispose_emits_terminated createdModelName
      setWidgetName answer tab in
  match answer with
  | Fulfilled fetched =>
      ready tab' = true /\ runningTensorBoards tab' = fetched /\
      models (tensorboardManager tab') = fetched
  | Rejected _ => tab' = tab
  end.
Proof.
  cbv zeta. unfold refreshRunning_settle.
  destruct answer as [fetched|reason]; cbn [_refreshRunning_settle].
  - destruct (refreshRunning_then_frame createdModelName setWidgetName
                (set_manager
                   (_refreshRunning_then dispose_emits_terminated fetched
                      (tensorboardManager tab)) tab))
      as (Hr & Hl & Hm & _).
    cbn [tensorboardManager set_manager] in Hl, Hm.
    rewrite Hr, Hl, Hm, _refreshRunning_then_models. auto.
  - apply set_manager_same.
Qed.

(** The callback of the tab when it is ready and the model of the ref is
    not in the fetched list. *)
Lemma refreshRunning_settle_missing
    (dispose_emits_terminated : ITensorboard.t -> bool)
    (createdModelName : option string) (setWidgetName : bool)
    (fetched : list IModel.t) (current : IModel.t) (tab : TensorboardTab.t) :
  ready tab = true -> currentTensorBoardRef tab = Some current ->
  (IModel.name current ∉ names fetched) ->
  refreshRunning_settle dispose_emits_terminated createdModelName
    setWidgetName (Fulfilled fetched) tab =
  setNotActiveError true
    (setRunningTensorBoards fetched
       (set_manager
          (_refreshRunning_then dispose_emits_terminated fetched
             (tensorboardManager tab)) tab)).
Proof.
  intros Hr Href Hout. unfold refreshRunning_settle.
  cbn [_refreshRunning_settle]. unfold refreshRunning_then.
  cbn [ready currentTensorBoardRef setRunningTensorBoards set_manager
       tensorboardManager].
  rewrite Hr, Href. unfold running. rewrite _refreshRunning_then_models.
  apply Array_find_name_none in Hout. rewrite Hout. reflexivity.
Qed.

(** X23. When the tab is ready and a model has been made current, a fulfilled
    poll raises the not-active error exactly when the name of that model is
    missing from the reported list; it never takes the error back, and it
    changes neither the current model nor the calls made through the props. *)
Theorem tab_refresh_flags_missing_current
    (dispose_emits_terminated : ITensorboard.t -> bool)
    (createdModelName : option string) (setWidgetName : bool)
    (fetched : list IModel.t) (current : IModel.t) (tab : TensorboardTab.t) :
  ready tab = true -> currentTensorBoardRef tab = Some current ->
  let tab' :=
    refreshRunning_settle dispose_emits_terminated createdModelName
      setWidgetName (Fulfilled fetched) tab in
  notActiveError tab' =
    (if decide (IModel.name current ∈ names fetched)
     then notActiveError tab else true) /\
  currentTensorBoard tab' = currentTensorBoard tab /\
  currentTensorBoardRef tab' = Some current /\
  calls tab' = calls tab.
Proof.
  intros Hr Href. cbv zeta. unfold refreshRunning_settle.
  cbn [_refreshRunning_settle]. unfold refreshRunning_then.
  cbn [ready currentTensorBoardRef setRunningTensorBoards set_manager
       tensorboardManager].
  rewrite Hr, Href. unfold running. rewrite _refreshRunning_then_models.
  destruct (Array_find
              (fun model => String.eqb (IModel.name model) (IModel.name current))
              fetched) as [found|] eqn:E.
  - destruct (decide (IModel.name current ∈ names fetched)) as [H|H].
    + repeat split. exact Href.
    + apply Array_find_name_none in H. congruence.
  - apply Array_find_name_none in E.
    destruct (decide (IModel.name current ∈ names fetched)) as [H|H];
      [contradiction|].
    repeat split. exact Href.
Qed.

Lemma tab_refresh_flags_missing_current_witness :
  notActiveError
    (refreshRunning_settle Fixtures.always None false (Fulfilled [Fixtures.tb2])
       TabFixtures.showing) = true.
Proof.
  destruct (tab_refresh_flags_missing_current Fixtures.always None false
              [Fixtures.tb2] Fixtures.tb1 TabFixtures.showing eq_refl eq_refl)
    as (H & _).
  rewrite H. reflexivity.
Defined.

(** *** [changeModel] *)

(** X24. Selecting another model in the list changes the state only: the ref
    that the polls test, and the model reported to the widget, stay those of
    the model set before.  So when that earlier model is no longer reported,
    the next fulfilled poll raises the not-active error although another
    model is selected, listed or not. *)
Theorem changeModel_leaves_ref_behind
    (dispose_emits_terminated : ITensorboard.t -> bool)
    (createdModelName : option string) (setWidgetName : bool)
    (old selected : IModel.t) (fetched : list IModel.t)
    (tab : TensorboardTab.t) :
  ready tab = true ->
  currentTensorBoard tab = Some old -> currentTensorBoardRef tab = Some old ->
  IModel.name old <> IModel.name selected ->
  (IModel.name old ∉ names fetched) ->
  let tab1 := changeModel setWidgetName selected tab in
  let tab2 :=
    refreshRunning_settle dispose_emits_terminated createdModelName
      setWidgetName (Fulfilled fetched) tab1 in
  currentTensorBoard tab1 = Some selected /\
  currentTensorBoardRef tab1 = Some old /\
  calls tab1 =
    (calls tab ++
     if setWidgetName then [SetWidgetName (widgetName tab selected)] else [])%list /\
  currentTensorBoard tab2 = Some selected /\
  notActiveError tab2 = true.
Proof.
  intros Hr Hcur Href Hne Hout tab1 tab2.
  assert (H1 : currentTensorBoard tab1 = Some selected /\
               currentTensorBoardRef tab1 = Some old /\
               ready tab1 = true /\
               calls tab1 =
                 (calls tab ++
                  if setWidgetName then [SetWidgetName (widgetName tab selected)]
                  else [])%list).
  { subst tab1. unfold changeModel. rewrite Hcur.
    apply String.eqb_neq in Hne. rewrite Hne.
    destruct setWidgetName; cbn; rewrite ?app_nil_r; auto. }
  destruct H1 as (Hc1 & Hr1 & Hrd1 & Hk1).
  assert (H2 : tab2 =
               setNotActiveError true
                 (setRunningTensorBoards fetched
                    (set_manager
                       (_refreshRunning_then dispose_emits_terminated fetched
                          (tensorboardManager tab1)) tab1))).
  { subst tab2. apply (refreshRunning_settle_missing _ _ _ fetched old); assumption. }
  repeat split; try assumption.
  - rewrite H2. exact Hc1.
  - rewrite H2. reflexivity.
Qed.

Lemma changeModel_leaves_ref_behind_witness :
  let tab2 :=
    refreshRunning_settle Fixtures.always None false (Fulfilled [Fixtures.tb2])
      (changeModel false Fixtures.tb2 TabFixtures.showing) in
  currentTensorBoard tab2 = Some Fixtures.tb2 /\ notActiveError tab2 = true.
Proof.
  assert (Hne : IModel.name Fixtures.tb1 <> IModel.name Fixtures.tb2) by discriminate.
  assert (Hout : IModel.name Fixtures.tb1 ∉ names [Fixtures.tb2]).
  { vm_compute. intros H. apply list_elem_of_singleton in H. discriminate. }
  destruct (changeModel_leaves_ref_behind Fixtures.always None false
              Fixtures.tb1 Fixtures.tb2 [Fixtures.tb2] TabFixtures.showing
              eq_refl eq_refl eq_refl Hne Hout)
    as (_ & _ & _ & Hc & Hn).
  split; [exact Hc|exact Hn].
Defined.

End TabExtras.
